(** * HerdLink barn gate controller (V5.ino): door motor state machine,
      occupancy tracker, tag dispatcher and status service.

    The sketch keeps its whole state in global variables and mutates them
    from [void] functions.  Each function is embedded as a function from the
    globals (record [World]) to the globals; the lines written to [Serial]
    are kept as a trace inside the same record.  The two FreeRTOS tasks are
    not modelled: every function is taken as one atomic call. *)

From Stdlib Require Import ZArith String Ascii DecimalString Lia.
From stdpp Require Import base list strings.

Local Open Scope Z_scope.

(** ** Constants (the #defines of the sketch) *)

Definition DOOR_HOLD_TIME_MS : Z := 3000.
Definition POS_CLOSED : Z := 0.
Definition POS_OPEN : Z := 1400.
Definition MAX_GOATS_IN_BARN : nat := 10.

(** [unsigned long] is 32 bits wide on the ESP32; [wrap32] is its
    wrap-around. *)
Definition wrap32 (z : Z) : Z := z mod 2 ^ 32.

(** ** The stepper driver

    [AccelStepper] is a third-party class; the sketch only calls the four
    methods below on the global [motor].  It is taken as an interface. *)

Class AccelStepper (M : Type) := {
  moveTo : Z -> M -> M;
  run : M -> M;
  distanceToGo : M -> Z;
  currentPosition : M -> Z
}.

(** A reference driver used to run the controller on concrete inputs: a
    position and a target, one step per [run] towards the target (the speed
    ramp of the real driver is left out). *)
Record IdealStepper := { ideal_pos : Z; ideal_target : Z }.

Definition ideal_run (m : IdealStepper) : IdealStepper :=
  if ideal_pos m <? ideal_target m
  then {| ideal_pos := ideal_pos m + 1; ideal_target := ideal_target m |}
  else if ideal_target m <? ideal_pos m
  then {| ideal_pos := ideal_pos m - 1; ideal_target := ideal_target m |}
  else m.

#[export] Instance ideal_stepper : AccelStepper IdealStepper := {
  moveTo p m := {| ideal_pos := ideal_pos m; ideal_target := p |};
  run := ideal_run;
  distanceToGo m := ideal_target m - ideal_pos m;
  currentPosition := ideal_pos
}.

(** ** Data model *)

Inductive MotorState_t :=
  | MOTOR_IDLE
  | MOTOR_OPENING
  | MOTOR_OPEN_HOLDING
  | MOTOR_CLOSING
  | MOTOR_MANUAL_OPEN
  | MOTOR_ERROR.

#[export] Instance MotorState_eq_dec : EqDecision MotorState_t.
Proof. solve_decision. Defined.

(** The card serial number the MFRC522 driver hands over ([MFRC522::Uid]). *)
Record Uid := { uid_size : nat; uidByte : list Z }.

Record GoatRecord_t := { goat_name : string; goat_uid : list Z }.

Definition knownGoats : list GoatRecord_t :=
  [ {| goat_name := "Bron";    goat_uid := [0x64; 0x3E; 0x32; 0x03] |};
    {| goat_name := "TFrance"; goat_uid := [0xB9; 0x72; 0xA9; 0x11] |};
    {| goat_name := "BigO";    goat_uid := [0xF9; 0xEF; 0x61; 0x12] |} ].

(** One constructor per line the modelled functions print on [Serial]; the
    arguments are the values formatted into the line. *)
Inductive LogMsg :=
  | LogMotorBusy
  | LogMotorOpening
  | LogMotorAlreadyClosed
  | LogMotorClosingManual
  | LogMotorManualOpenCmd
  | LogMotorManualCloseCmd
  | LogMotorDoorOpen (finalPos moveTime : Z)
  | LogMotorWarning (expected got : Z)
  | LogMotorManualStays
  | LogMotorClosingAuto
  | LogMotorDoorClosed (finalPos moveTime : Z)
  | LogMotorReady
  | LogMotorRule
  | LogMotorErrorState
  | LogBarnAlreadyInside (name : string)
  | LogBarnEntered (name : string) (total : nat)
  | LogBarnFull
  | LogBarnExited (name : string) (total : nat)
  | LogBarnNotFound (name : string)
  | LogRfidDetected (readerNumber : Z) (goat : string) (uid : Uid)
  | LogRfidIgnored.

(** The global variables of the sketch.  [barnPopulation] is an [int] that
    the code keeps between 0 and [MAX_GOATS_IN_BARN]; [barnOccupants] is the
    fixed array of [MAX_GOATS_IN_BARN] strings. *)
Record World (M : Type) := mkWorld {
  motor : M;
  motorState : MotorState_t;
  motorStateStartTime : Z;
  motorMoveStartTime : Z;
  manualMode : bool;
  totalMoves : Z;
  failedMoves : Z;
  lastCardStateR1 : bool;
  lastCardStateR2 : bool;
  barnOccupants : list string;
  barnPopulation : nat;
  serial : list LogMsg
}.

Arguments mkWorld {M}.
Arguments motor {M}.
Arguments motorState {M}.
Arguments motorStateStartTime {M}.
Arguments motorMoveStartTime {M}.
Arguments manualMode {M}.
Arguments totalMoves {M}.
Arguments failedMoves {M}.
Arguments lastCardStateR1 {M}.
Arguments lastCardStateR2 {M}.
Arguments barnOccupants {M}.
Arguments barnPopulation {M}.
Arguments serial {M}.

Section Globals.
Context {M : Type}.

Definition set_motor (x : M) (w : World M) : World M :=
  mkWorld x (motorState w) (motorStateStartTime w) (motorMoveStartTime w)
    (manualMode w) (totalMoves w) (failedMoves w) (lastCardStateR1 w)
    (lastCardStateR2 w) (barnOccupants w) (barnPopulation w) (serial w).

Definition set_motorState (x : MotorState_t) (w : World M) : World M :=
  mkWorld (motor w) x (motorStateStartTime w) (motorMoveStartTime w)
    (manualMode w) (totalMoves w) (failedMoves w) (lastCardStateR1 w)
    (lastCardStateR2 w) (barnOccupants w) (barnPopulation w) (serial w).

Definition set_motorStateStartTime (x : Z) (w : World M) : World M :=
  mkWorld (motor w) (motorState w) x (motorMoveStartTime w)
    (manualMode w) (totalMoves w) (failedMoves w) (lastCardStateR1 w)
    (lastCardStateR2 w) (barnOccupants w) (barnPopulation w) (serial w).

Definition set_motorMoveStartTime (x : Z) (w : World M) : World M :=
  mkWorld (motor w) (motorState w) (motorStateStartTime w) x
    (manualMode w) (totalMoves w) (failedMoves w) (lastCardStateR1 w)
    (lastCardStateR2 w) (barnOccupants w) (barnPopulation w) (serial w).

Definition set_manualMode (x : bool) (w : World M) : World M :=
  mkWorld (motor w) (motorState w) (motorStateStartTime w)
    (motorMoveStartTime w) x (totalMoves w) (failedMoves w)
    (lastCardStateR1 w) (lastCardStateR2 w) (barnOccupants w)
    (barnPopulation w) (serial w).

Definition set_totalMoves (x : Z) (w : World M) : World M :=
  mkWorld (motor w) (motorState w) (motorStateStartTime w)
    (motorMoveStartTime w) (manualMode w) x (failedMoves w)
    (lastCardStateR1 w) (lastCardStateR2 w) (barnOccupants w)
    (barnPopulation w) (serial w).

Definition set_failedMoves (x : Z) (w : World M) : World M :=
  mkWorld (motor w) (motorState w) (motorStateStartTime w)
    (motorMoveStartTime w) (manualMode w) (totalMoves w) x
    (lastCardStateR1 w) (lastCardStateR2 w) (barnOccupants w)
    (barnPopulation w) (serial w).

Definition set_lastCardStateR1 (x : bool) (w : World M) : World M :=
  mkWorld (motor w) (motorState w) (motorStateStartTime w)
    (motorMoveStartTime w) (manualMode w) (totalMoves w) (failedMoves w)
    x (lastCardStateR2 w) (barnOccupants w) (barnPopulation w) (serial w).

Definition set_lastCardStateR2 (x : bool) (w : World M) : World M :=
  mkWorld (motor w) (motorState w) (motorStateStartTime w)
    (motorMoveStartTime w) (manualMode w) (totalMoves w) (failedMoves w)
    (lastCardStateR1 w) x (barnOccupants w) (barnPopulation w) (serial w).

Definition set_barnOccupants (x : list string) (w : World M) : World M :=
  mkWorld (motor w) (motorState w) (motorStateStartTime w)
    (motorMoveStartTime w) (manualMode w) (totalMoves w) (failedMoves w)
    (lastCardStateR1 w) (lastCardStateR2 w) x (barnPopulation w) (serial w).

Definition set_barnPopulation (x : nat) (w : World M) : World M :=
  mkWorld (motor w) (motorState w) (motorStateStartTime w)
    (motorMoveStartTime w) (manualMode w) (totalMoves w) (failedMoves w)
    (lastCardStateR1 w) (lastCardStateR2 w) (barnOccupants w) x (serial w).

(** [Serial.println] / [Serial.printf]: one more line on the trace. *)
Definition println (msg : LogMsg) (w : World M) : World M :=
  mkWorld (motor w) (motorState w) (motorStateStartTime w)
    (motorMoveStartTime w) (manualMode w) (totalMoves w) (failedMoves w)
    (lastCardStateR1 w) (lastCardStateR2 w) (barnOccupants w)
    (barnPopulation w) (serial w ++ [msg]).
End Globals.

(** ** Motor control functions

    [millis()] is read from the environment: a function takes one argument
    per call of [millis()] in its body, in program order. *)

Section Motor.
Context {M : Type} `{AccelStepper M}.

Definition motorOpenDoor (t1 t2 : Z) (w : World M) : World M :=
  if bool_decide (motorState w <> MOTOR_IDLE)
     && bool_decide (motorState w <> MOTOR_MANUAL_OPEN)
  then println LogMotorBusy w
  else
    let w := println LogMotorOpening w in
    let w := set_motor (moveTo POS_OPEN (motor w)) w in
    let w := set_motorState MOTOR_OPENING w in
    let w := set_motorStateStartTime t1 w in
    let w := set_motorMoveStartTime t2 w in
    set_totalMoves (wrap32 (totalMoves w + 1)) w.

Definition motorCloseDoor (t1 : Z) (w : World M) : World M :=
  if bool_decide (motorState w = MOTOR_IDLE)
  then println LogMotorAlreadyClosed w
  else
    let w := println LogMotorClosingManual w in
    let w := set_motor (moveTo POS_CLOSED (motor w)) w in
    let w := set_motorState MOTOR_CLOSING w in
    let w := set_motorMoveStartTime t1 w in
    set_manualMode false w.

Definition motorManualOpen (t1 t2 : Z) (w : World M) : World M :=
  let w := println LogMotorManualOpenCmd w in
  let w := set_manualMode true w in
  motorOpenDoor t1 t2 w.

Definition motorManualClose (t1 : Z) (w : World M) : World M :=
  let w := println LogMotorManualCloseCmd w in
  motorCloseDoor t1 w.

Definition motorUpdate (t1 t2 : Z) (w : World M) : World M :=
  let w := set_motor (run (motor w)) w in
  match motorState w with
  | MOTOR_IDLE => w
  | MOTOR_OPENING =>
      if bool_decide (distanceToGo (motor w) = 0) then
        let moveTime := wrap32 (t1 - motorMoveStartTime w) in
        let finalPos := currentPosition (motor w) in
        let w := println (LogMotorDoorOpen finalPos moveTime) w in
        let w :=
          if bool_decide (finalPos <> POS_OPEN) then
            let w := println (LogMotorWarning POS_OPEN finalPos) w in
            set_failedMoves (wrap32 (failedMoves w + 1)) w
          else w in
        if manualMode w then
          let w := set_motorState MOTOR_MANUAL_OPEN w in
          println LogMotorManualStays w
        else
          let w := set_motorState MOTOR_OPEN_HOLDING w in
          set_motorStateStartTime t2 w
      else w
  | MOTOR_OPEN_HOLDING =>
      if bool_decide (DOOR_HOLD_TIME_MS <= wrap32 (t1 - motorStateStartTime w))
      then
        let w := println LogMotorClosingAuto w in
        let w := set_motor (moveTo POS_CLOSED (motor w)) w in
        let w := set_motorState MOTOR_CLOSING w in
        set_motorMoveStartTime t2 w
      else w
  | MOTOR_MANUAL_OPEN => w
  | MOTOR_CLOSING =>
      if bool_decide (distanceToGo (motor w) = 0) then
        let moveTime := wrap32 (t1 - motorMoveStartTime w) in
        let finalPos := currentPosition (motor w) in
        let w := println (LogMotorDoorClosed finalPos moveTime) w in
        let w :=
          if bool_decide (finalPos <> POS_CLOSED) then
            let w := println (LogMotorWarning POS_CLOSED finalPos) w in
            set_failedMoves (wrap32 (failedMoves w + 1)) w
          else w in
        let w := set_motorState MOTOR_IDLE w in
        let w := println LogMotorReady w in
        println LogMotorRule w
      else w
  | MOTOR_ERROR => println LogMotorErrorState w
  end.

Definition motorIsIdle (w : World M) : bool :=
  bool_decide (motorState w = MOTOR_IDLE)
  || bool_decide (motorState w = MOTOR_MANUAL_OPEN).

(** The [default: return "unknown"] arm is not reachable from a value of
    the enumeration. *)
Definition motorGetStatus (w : World M) : string :=
  match motorState w with
  | MOTOR_IDLE => "closed"
  | MOTOR_OPENING => "opening"
  | MOTOR_OPEN_HOLDING => "open"
  | MOTOR_MANUAL_OPEN => "manual_open"
  | MOTOR_CLOSING => "closing"
  | MOTOR_ERROR => "error"
  end.
End Motor.

(** ** Goat tracking functions

    The mutex taken and given around each body is not modelled. *)

(** [for (int i = i0; i < i0 + n; i++) if (arr[i] == name) return i]: the
    scan that opens both [barnAddGoat] and [barnRemoveGoat]; [n] is the
    number of iterations left. *)
Fixpoint barn_scan (name : string) (arr : list string) (i n : nat) : option nat :=
  match n with
  | O => None
  | S n' =>
      if bool_decide (arr !! i = Some name) then Some i
      else barn_scan name arr (S i) n'
  end.

(** [for (int j = j0; j < j0 + n; j++) arr[j] = arr[j + 1]]. *)
Fixpoint barn_shift (arr : list string) (j n : nat) : list string :=
  match n with
  | O => arr
  | S n' =>
      barn_shift (match arr !! S j with
                  | Some x => <[j:=x]> arr
                  | None => arr
                  end) (S j) n'
  end.

Section Barn.
Context {M : Type}.

Definition barnAddGoat (name : string) (w : World M) : World M :=
  match barn_scan name (barnOccupants w) 0 (barnPopulation w) with
  | Some _ => println (LogBarnAlreadyInside name) w
  | None =>
      if (barnPopulation w <? MAX_GOATS_IN_BARN)%nat then
        let w := set_barnOccupants (<[barnPopulation w:=name]> (barnOccupants w)) w in
        let w := set_barnPopulation (S (barnPopulation w)) w in
        println (LogBarnEntered name (barnPopulation w)) w
      else println LogBarnFull w
  end.

Definition barnRemoveGoat (name : string) (w : World M) : World M :=
  match barn_scan name (barnOccupants w) 0 (barnPopulation w) with
  | Some i =>
      let w := set_barnOccupants
                 (barn_shift (barnOccupants w) i (barnPopulation w - 1 - i)) w in
      let w := set_barnPopulation (barnPopulation w - 1) w in
      println (LogBarnExited name (barnPopulation w)) w
  | None => println (LogBarnNotFound name) w
  end.

(** The names currently inside: the first [barnPopulation] array slots. *)
Definition occupants (w : World M) : list string :=
  take (barnPopulation w) (barnOccupants w).

(** The array has its declared size and the counter stays inside it. *)
Definition barn_wf (w : World M) : Prop :=
  length (barnOccupants w) = MAX_GOATS_IN_BARN /\
  (barnPopulation w <= MAX_GOATS_IN_BARN)%nat.
End Barn.

(** ** RFID functions *)

(** The inner loop of [rfidIdentifyGoat]: the first four bytes agree. *)
Definition uid_matches (g : GoatRecord_t) (uid : Uid) : bool :=
  forallb (fun j => bool_decide (goat_uid g !! j = uidByte uid !! j)) (seq 0 4).

Definition rfidIdentifyGoat (uid : Uid) : option string :=
  if (uid_size uid <? 4)%nat then None
  else goat_name <$> List.find (fun g => uid_matches g uid) knownGoats.

(** The [bool &lastState] parameter of [rfidCheckReader]: the global it is
    bound to at the two call sites. *)
Inductive FlagRef := RefR1 | RefR2.

Section Rfid.
Context {M : Type} `{AccelStepper M}.

Definition get_flag (r : FlagRef) (w : World M) : bool :=
  match r with
  | RefR1 => lastCardStateR1 w
  | RefR2 => lastCardStateR2 w
  end.

Definition set_flag (r : FlagRef) (b : bool) (w : World M) : World M :=
  match r with
  | RefR1 => set_lastCardStateR1 b w
  | RefR2 => set_lastCardStateR2 b w
  end.

(** [cardPresent] is the value of
    [reader.PICC_IsNewCardPresent() && reader.PICC_ReadCardSerial()] and
    [uid] is [reader.uid]; [PICC_HaltA] and [PCD_StopCrypto1] act on the
    reader only.  The log line carries the raw uid instead of its
    hexadecimal rendering. *)
Definition rfidCheckReader (cardPresent : bool) (uid : Uid)
    (readerNumber : Z) (lastState : FlagRef) (t1 t2 : Z) (w : World M)
    : World M :=
  if cardPresent && negb (get_flag lastState w) then
    let goat := match rfidIdentifyGoat uid with
                | Some n => n
                | None => "UNKNOWN"%string
                end in
    let w := println (LogRfidDetected readerNumber goat uid) w in
    let w :=
      if bool_decide (readerNumber = 1) then barnAddGoat goat w
      else if bool_decide (readerNumber = 2) then barnRemoveGoat goat w
      else w in
    let w :=
      if negb (manualMode w) && motorIsIdle w then motorOpenDoor t1 t2 w
      else println LogRfidIgnored w in
    set_flag lastState true w
  else if negb cardPresent then set_flag lastState false w
  else w.
End Rfid.

(** ** Web server handlers *)

Record Response := { status : Z; content_type : string; body : string }.

Definition dquote : string := String "034"%char EmptyString.

(** [String(int)]: the decimal rendering of the counter. *)
Definition String_of_int (n : nat) : string :=
  NilZero.string_of_uint (Nat.to_uint n).

(** The loop of [webHandleAPI] that appends the quoted names; [n] is the
    number of iterations left. *)
Fixpoint json_goats (arr : list string) (pop i n : nat) (json : string) : string :=
  match n with
  | O => json
  | S n' =>
      let json := (json +:+ (dquote +:+ default ""%string (arr !! i) +:+ dquote))%string in
      let json := if (i <? pop - 1)%nat then (json +:+ ",")%string else json in
      json_goats arr pop (S i) n' json
  end.

Section Web.
Context {M : Type} `{AccelStepper M}.

Definition webHandleAPI (w : World M) : World M * Response :=
  let json := ("{" +:+ dquote +:+ "count" +:+ dquote +:+ ":"
               +:+ String_of_int (barnPopulation w)
               +:+ "," +:+ dquote +:+ "doorStatus" +:+ dquote +:+ ":" +:+ dquote
               +:+ motorGetStatus w
               +:+ dquote +:+ "," +:+ dquote +:+ "goats" +:+ dquote +:+ ":[")%string in
  let json := json_goats (barnOccupants w) (barnPopulation w) 0 (barnPopulation w) json in
  let json := (json +:+ "]}")%string in
  (w, {| status := 200; content_type := "application/json"; body := json |}).

Definition webHandleDoorOpen (t1 t2 : Z) (w : World M) : World M * Response :=
  let w := motorManualOpen t1 t2 w in
  (w, {| status := 200; content_type := "text/plain"; body := "OK" |}).

Definition webHandleDoorClose (t1 : Z) (w : World M) : World M * Response :=
  let w := motorManualClose t1 w in
  (w, {| status := 200; content_type := "text/plain"; body := "OK" |}).
End Web.

(** The globals as their initialisers leave them. *)
Definition initial_world {M : Type} (m : M) : World M :=
  mkWorld m MOTOR_IDLE 0 0 false 0 0 false false
    (replicate MAX_GOATS_IN_BARN ""%string) 0 [].

(** ** Entry points and command sequences

    The spec names the controller operations [requestOpen(manual)],
    [requestClose()] and [update()]; in the sketch they are [motorOpenDoor]
    (automatic) and [motorManualOpen] (manual), [motorCloseDoor], and
    [motorUpdate]. *)

Inductive Command :=
  | CmdUpdate (t1 t2 : Z)
  | CmdOpen (t1 t2 : Z)
  | CmdManualOpen (t1 t2 : Z)
  | CmdClose (t1 : Z)
  | CmdManualClose (t1 : Z)
  | CmdPoll (cardPresent : bool) (uid : Uid) (readerNumber : Z)
            (lastState : FlagRef) (t1 t2 : Z)
  | CmdStatus.

Definition is_close (c : Command) : bool :=
  match c with
  | CmdClose _ | CmdManualClose _ => true
  | _ => false
  end.

Section Commands.
Context {M : Type} `{AccelStepper M}.

Definition exec (c : Command) (w : World M) : World M :=
  match c with
  | CmdUpdate t1 t2 => motorUpdate t1 t2 w
  | CmdOpen t1 t2 => motorOpenDoor t1 t2 w
  | CmdManualOpen t1 t2 => fst (webHandleDoorOpen t1 t2 w)
  | CmdClose t1 => motorCloseDoor t1 w
  | CmdManualClose t1 => fst (webHandleDoorClose t1 w)
  | CmdPoll cp uid n r t1 t2 => rfidCheckReader cp uid n r t1 t2 w
  | CmdStatus => fst (webHandleAPI w)
  end.

Definition exec_all (cs : list Command) (w : World M) : World M :=
  fold_left (fun w c => exec c w) cs w.

(** No close command of [cs] is accepted when [cs] runs from [w]: every
    close in it finds the door [MOTOR_IDLE]. *)
Fixpoint no_close_accepted (cs : list Command) (w : World M) : bool :=
  match cs with
  | [] => true
  | c :: cs' =>
      (negb (is_close c) || bool_decide (motorState w = MOTOR_IDLE))
      && no_close_accepted cs' (exec c w)
  end.

(** A run of polls of one channel during which the card stays present:
    each poll brings the uid read and the two clock readings. *)
Definition poll_present (readerNumber : Z) (lastState : FlagRef)
    (w : World M) (p : Uid * (Z * Z)) : World M :=
  rfidCheckReader true (fst p) readerNumber lastState
    (fst (snd p)) (snd (snd p)) w.

Definition run_present (readerNumber : Z) (lastState : FlagRef)
    (ps : list (Uid * (Z * Z))) (w : World M) : World M :=
  fold_left (poll_present readerNumber lastState) ps w.
End Commands.

Inductive BarnOp :=
  | Add (name : string)
  | Remove (name : string).

Definition barn_op {M : Type} (o : BarnOp) (w : World M) : World M :=
  match o with
  | Add name => barnAddGoat name w
  | Remove name => barnRemoveGoat name w
  end.

Definition run_barn {M : Type} (os : list BarnOp) (w : World M) : World M :=
  fold_left (fun w o => barn_op o w) os w.

(** ** Reading the serial trace

    Every call of [barnAddGoat] or [barnRemoveGoat] prints exactly one of
    the barn lines, and every call of [motorOpenDoor] prints exactly one of
    "busy" and "opening": counting these lines counts the calls. *)

Definition is_barn_event (m : LogMsg) : bool :=
  match m with
  | LogBarnAlreadyInside _ | LogBarnEntered _ _ | LogBarnFull
  | LogBarnExited _ _ | LogBarnNotFound _ => true
  | _ => false
  end.

Definition is_open_request (m : LogMsg) : bool :=
  match m with
  | LogMotorBusy | LogMotorOpening => true
  | _ => false
  end.

Definition count_log (f : LogMsg -> bool) (l : list LogMsg) : nat :=
  length (List.filter f l).

(** ** The operations as the specification words them *)

(** The acceptance rule of [requestOpen] in the words of the contract:
    Idle/Closed, or already ManualOpen or Opening. *)
Definition spec_requestOpen_accepts (s : MotorState_t) : bool :=
  match s with
  | MOTOR_IDLE | MOTOR_MANUAL_OPEN | MOTOR_OPENING => true
  | _ => false
  end.

(** [addIfAbsent]: no-op if found, otherwise append if under capacity. *)
Definition addIfAbsent (name : string) (l : list string) : list string :=
  if bool_decide (name ∈ l) then l
  else if (length l <? MAX_GOATS_IN_BARN)%nat then l ++ [name]
  else l.

(** [removeIfPresent]: remove the entry found by the linear scan and keep
    the order of the others. *)
Fixpoint removeIfPresent (name : string) (l : list string) : list string :=
  match l with
  | [] => []
  | x :: l' => if bool_decide (x = name) then l' else x :: removeIfPresent name l'
  end.

Definition spec_barn_op (o : BarnOp) (l : list string) : list string :=
  match o with
  | Add name => addIfAbsent name l
  | Remove name => removeIfPresent name l
  end.

(** The status body in the shape the interface section gives it. *)
Definition quoted (s : string) : string := (dquote +:+ s +:+ dquote)%string.

Definition spec_status_json (names : list string) (token : string) : string :=
  ("{" +:+ quoted "count" +:+ ":" +:+ String_of_int (length names)
   +:+ "," +:+ quoted "doorStatus" +:+ ":" +:+ quoted token
   +:+ "," +:+ quoted "goats" +:+ ":[" +:+ String.concat "," (map quoted names)
   +:+ "]}")%string.

Definition door_tokens : list string :=
  ["closed"; "opening"; "open"; "manual_open"; "closing"; "error"]%string.

(** ** Concrete worlds used in the examples *)

Definition stepper_at (pos target : Z) : IdealStepper :=
  {| ideal_pos := pos; ideal_target := target |}.

Definition world0 : World IdealStepper := initial_world (stepper_at 0 0).

(** Occupancy [Bron], door opening. *)
Definition w_bron : World IdealStepper :=
  motorOpenDoor 100 100 (barnAddGoat "Bron" world0).

Definition w_opening : World IdealStepper := set_motorState MOTOR_OPENING world0.

(** Opening with the actuator one step short of a target that is not
    [POS_OPEN]: an arrival with positional drift. *)
Definition w_drift : World IdealStepper :=
  set_motorState MOTOR_OPENING (initial_world (stepper_at 1398 1399)).

(** Holding since clock reading 5000. *)
Definition w_holding : World IdealStepper :=
  set_motorStateStartTime 5000
    (set_motorState MOTOR_OPEN_HOLDING (initial_world (stepper_at 1400 1400))).

Definition w_closing : World IdealStepper :=
  set_motorState MOTOR_CLOSING (initial_world (stepper_at 700 0)).

Definition w_error : World IdealStepper := set_motorState MOTOR_ERROR world0.

(** Bron and TFrance entered, Bron left and came back. *)
Definition w_two : World IdealStepper :=
  run_barn [Add "Bron"; Add "TFrance"; Remove "Bron"; Add "Bron"]%string world0.

(** Ten distinct names: the barn is full. *)
Definition w_full : World IdealStepper :=
  run_barn (map Add ["g0"; "g1"; "g2"; "g3"; "g4"; "g5"; "g6"; "g7"; "g8"; "g9"]%string)
    world0.

Definition uid_bron : Uid :=
  {| uid_size := 4; uidByte := [0x64; 0x3E; 0x32; 0x03; 0; 0; 0; 0; 0; 0] |}.

(** ** The uid rendering and the task loop *)

(** The digit [utoa] writes for a value below 16 (lower case). *)
Definition hex_digit (d : Z) : ascii :=
  if d <? 10 then ascii_of_nat (Z.to_nat (48 + d))
  else ascii_of_nat (Z.to_nat (87 + d)).

(** [String(b, HEX)] for a [byte] (0..255): its base-16 digits without a
    leading zero. *)
Definition String_of_byte_HEX (b : Z) : string :=
  if b <? 16 then String (hex_digit b) EmptyString
  else String (hex_digit (b / 16)) (String (hex_digit (b mod 16)) EmptyString).

(** [toupper] on one character and [String::toUpperCase]. *)
Definition toupper (c : ascii) : ascii :=
  let n := nat_of_ascii c in
  if ((97 <=? n) && (n <=? 122))%nat then ascii_of_nat (n - 32) else c.

Fixpoint toUpperCase (s : string) : string :=
  match s with
  | EmptyString => EmptyString
  | String c s' => String (toupper c) (toUpperCase s')
  end.

(** The loop of [rfidUidToString]; [n] is the number of iterations left.
    A slot outside the list reads as 0. *)
Fixpoint uid_loop (bytes : list Z) (size i n : nat) (result : string) : string :=
  match n with
  | O => result
  | S n' =>
      let b := default 0 (bytes !! i) in
      let result := if b <? 16 then (result +:+ "0")%string else result in
      let result := (result +:+ String_of_byte_HEX b)%string in
      let result := if (i <? size - 1)%nat then (result +:+ ":")%string else result in
      uid_loop bytes size (S i) n' result
  end.

Definition rfidUidToString (uid : Uid) : string :=
  toUpperCase (uid_loop (uidByte uid) (uid_size uid) 0 (uid_size uid) "").

(** Two upper-case hexadecimal digits: what one byte contributes. *)
Definition hex2 (b : Z) : string :=
  String (toupper (hex_digit (b / 16)))
    (String (toupper (hex_digit (b mod 16))) EmptyString).

(** The value of an upper-case hexadecimal digit (used to read a rendered
    uid back). *)
Definition hex_value (c : ascii) : Z :=
  let n := Z.of_nat (nat_of_ascii c) in
  if n <? 58 then n - 48 else n - 55.

Definition is_byte (b : Z) : Prop := 0 <= b < 256.

(** ** The clock string of the first sketch

    [timeString] of the earlier version of the sketch (kept in the
    repository beside V5.ino); [ms] is the reading of [millis()]. *)

(** [sprintf] with the conversion [%02d]. *)
Definition fmt_02d (n : Z) : string :=
  let s := NilZero.string_of_int (Z.to_int n) in
  if (String.length s <? 2)%nat then ("0" +:+ s)%string else s.

Definition time_hh (ms : Z) : Z := ((ms / 1000) / 3600) mod 24.
Definition time_mm (ms : Z) : Z := ((ms / 1000) / 60) mod 60.
Definition time_ss (ms : Z) : Z := (ms / 1000) mod 60.

Definition timeString (ms : Z) : string :=
  (fmt_02d (time_hh ms) +:+ ":" +:+ fmt_02d (time_mm ms) +:+ ":"
   +:+ fmt_02d (time_ss ms))%string.

(** What the environment supplies to one pass of the [while (true)] body of
    [taskMotorAndRFID]: the clock readings of [motorUpdate] and, for each
    reader, the outcome of the presence test, the uid and the clock
    readings of the open request. *)
Record LoopInput := {
  upd_t1 : Z; upd_t2 : Z;
  r1_present : bool; r1_uid : Uid; r1_t1 : Z; r1_t2 : Z;
  r2_present : bool; r2_uid : Uid; r2_t1 : Z; r2_t2 : Z
}.

Section Task.
Context {M : Type} `{AccelStepper M}.

(** One pass of the loop body ([delayMicroseconds] only waits). *)
Definition taskMotorAndRFID_pass (i : LoopInput) (w : World M) : World M :=
  let w := motorUpdate (upd_t1 i) (upd_t2 i) w in
  if motorIsIdle w then
    let w := rfidCheckReader (r1_present i) (r1_uid i) 1 RefR1 (r1_t1 i) (r1_t2 i) w in
    rfidCheckReader (r2_present i) (r2_uid i) 2 RefR2 (r2_t1 i) (r2_t2 i) w
  else w.

Definition taskMotorAndRFID_run (ins : list LoopInput) (w : World M) : World M :=
  fold_left (fun w i => taskMotorAndRFID_pass i w) ins w.

(** [n] successive calls of [motorUpdate], with their clock readings. *)
Definition update_all (ts : list (Z * Z)) (w : World M) : World M :=
  fold_left (fun w t => motorUpdate (fst t) (snd t) w) ts w.
End Task.

Definition is_open (c : Command) : bool :=
  match c with
  | CmdOpen _ _ | CmdManualOpen _ _ => true
  | _ => false
  end.

(** The name a scan is booked under: [goatName ? String(goatName) :
    "UNKNOWN"] in [rfidCheckReader]. *)
Definition goat_of_uid (uid : Uid) : string :=
  match rfidIdentifyGoat uid with
  | Some n => n
  | None => "UNKNOWN"%string
  end.

(** The state changes the controller can make in one call. *)
Definition allowed_transition (s s' : MotorState_t) : bool :=
  match s, s' with
  | MOTOR_IDLE, MOTOR_OPENING
  | MOTOR_MANUAL_OPEN, MOTOR_OPENING
  | MOTOR_OPENING, MOTOR_OPEN_HOLDING
  | MOTOR_OPENING, MOTOR_MANUAL_OPEN
  | MOTOR_OPEN_HOLDING, MOTOR_CLOSING
  | MOTOR_CLOSING, MOTOR_IDLE
  | MOTOR_OPENING, MOTOR_CLOSING
  | MOTOR_MANUAL_OPEN, MOTOR_CLOSING
  | MOTOR_ERROR, MOTOR_CLOSING => true
  | _, _ => bool_decide (s = s')
  end.

Definition is_busy_line (m : LogMsg) : bool :=
  match m with LogMotorBusy => true | _ => false end.

Definition uid_tfrance : Uid :=
  {| uid_size := 7; uidByte := [0xB9; 0x72; 0xA9; 0x11; 0x0A; 0xFF; 0x00; 0; 0; 0] |}.

(** Two cards the registry does not know. *)
Definition uid_stray1 : Uid :=
  {| uid_size := 4; uidByte := [1; 2; 3; 4; 0; 0; 0; 0; 0; 0] |}.
Definition uid_stray2 : Uid :=
  {| uid_size := 4; uidByte := [5; 6; 7; 8; 0; 0; 0; 0; 0; 0] |}.

(** The manual flag left set with the door closed. *)
Definition w_stuck : World IdealStepper := set_manualMode true world0.

Definition w_manual_open : World IdealStepper :=
  set_manualMode true
    (set_motorState MOTOR_MANUAL_OPEN (initial_world (stepper_at 1400 1400))).



(** A tag scan has started an automatic opening, one step from the end. *)
Definition w_auto : World IdealStepper :=
  motorOpenDoor 10 10 (initial_world (stepper_at 1399 0)).

(** Closes a goal "these fields are unchanged and one line was printed". *)
Ltac one_line :=
  repeat split; eexists; split; [|split; [|reflexivity]]; reflexivity.

(** * Properties *)

(** ** Door motor controller *)

Section MotorFacts.
Context {M : Type} `{AccelStepper M}.
Implicit Types w : World M.

Lemma motorOpenDoor_accept t1 t2 w :
  motorState w = MOTOR_IDLE \/ motorState w = MOTOR_MANUAL_OPEN ->
  motorOpenDoor t1 t2 w =
    mkWorld (moveTo POS_OPEN (motor w)) MOTOR_OPENING t1 t2 (manualMode w)
      (wrap32 (totalMoves w + 1)) (failedMoves w) (lastCardStateR1 w)
      (lastCardStateR2 w) (barnOccupants w) (barnPopulation w)
      (serial w ++ [LogMotorOpening]).
Proof.
  intros Hs. unfold motorOpenDoor.
  destruct w as [m st]; simpl in *.
  destruct Hs as [-> | ->]; reflexivity.
Qed.

Lemma motorOpenDoor_reject t1 t2 w :
  motorState w <> MOTOR_IDLE -> motorState w <> MOTOR_MANUAL_OPEN ->
  motorOpenDoor t1 t2 w = println LogMotorBusy w.
Proof.
  intros H1 H2. unfold motorOpenDoor.
  rewrite !bool_decide_eq_true_2 by assumption. reflexivity.
Qed.

Lemma motorCloseDoor_idle t1 w :
  motorState w = MOTOR_IDLE ->
  motorCloseDoor t1 w = println LogMotorAlreadyClosed w.
Proof.
  intros Hs. unfold motorCloseDoor.
  rewrite bool_decide_eq_true_2 by assumption. reflexivity.
Qed.

Lemma motorCloseDoor_accept t1 w :
  motorState w <> MOTOR_IDLE ->
  motorCloseDoor t1 w =
    mkWorld (moveTo POS_CLOSED (motor w)) MOTOR_CLOSING
      (motorStateStartTime w) t1 false (totalMoves w) (failedMoves w)
      (lastCardStateR1 w) (lastCardStateR2 w) (barnOccupants w)
      (barnPopulation w) (serial w ++ [LogMotorClosingManual]).
Proof.
  intros Hs. unfold motorCloseDoor.
  rewrite bool_decide_eq_false_2 by assumption. reflexivity.
Qed.

(** The state after [motorUpdate] in a state that has no arrival or
    timer: the actuator has run and nothing else moved. *)
Lemma motorUpdate_error t1 t2 w :
  motorState w = MOTOR_ERROR ->
  motorUpdate t1 t2 w = println LogMotorErrorState (set_motor (run (motor w)) w).
Proof. intros Hs. unfold motorUpdate. simpl. rewrite Hs. reflexivity. Qed.

Lemma motorUpdate_manualMode t1 t2 w :
  manualMode (motorUpdate t1 t2 w) = manualMode w.
Proof.
  unfold motorUpdate. destruct w as [m st t0 tm mm tot fl r1 r2 occ pop log].
  simpl. destruct st; simpl; try reflexivity;
    repeat case_bool_decide; simpl; try reflexivity;
    destruct mm; reflexivity.
Qed.

Lemma motorOpenDoor_manualMode t1 t2 w :
  manualMode (motorOpenDoor t1 t2 w) = manualMode w.
Proof.
  unfold motorOpenDoor.
  destruct (_ && _); reflexivity.
Qed.

(** C1, as the code has it.  [motorOpenDoor] is accepted exactly in the states
    Idle and ManualOpen: there it aims the actuator at [POS_OPEN], moves to
    Opening, records both start times from the clock and increments the
    move counter (an [unsigned long], so modulo 2^32); nothing else
    changes but the serial trace.  In every other state, Opening
    included, it prints the busy line and changes nothing else. *)
Theorem C1_requestOpen_acceptance t1 t2 w :
  (motorState w = MOTOR_IDLE \/ motorState w = MOTOR_MANUAL_OPEN ->
     let w' := motorOpenDoor t1 t2 w in
     motor w' = moveTo POS_OPEN (motor w) /\
     motorState w' = MOTOR_OPENING /\
     motorMoveStartTime w' = t2 /\
     motorStateStartTime w' = t1 /\
     totalMoves w' = wrap32 (totalMoves w + 1) /\
     serial w' = serial w ++ [LogMotorOpening] /\
     w' = set_totalMoves (wrap32 (totalMoves w + 1))
            (set_motorMoveStartTime t2
              (set_motorStateStartTime t1
                (set_motorState MOTOR_OPENING
                  (set_motor (moveTo POS_OPEN (motor w))
                    (println LogMotorOpening w)))))) /\
  (motorState w <> MOTOR_IDLE /\ motorState w <> MOTOR_MANUAL_OPEN ->
     motorOpenDoor t1 t2 w = println LogMotorBusy w).
Proof.
  split.
  - intros Hs. cbv zeta. rewrite (motorOpenDoor_accept t1 t2 w Hs).
    simpl. repeat split; reflexivity.
  - intros [H1 H2]. now apply motorOpenDoor_reject.
Qed.
End MotorFacts.

(** C1, counterexample to the contract's wording: it lists Opening among
    the accepting states, but in Opening the code prints the busy line and
    leaves the move counter alone. *)
Lemma C1_opening_is_rejected :
  spec_requestOpen_accepts (motorState w_opening) = true /\
  motorOpenDoor 7 7 w_opening = println LogMotorBusy w_opening /\
  totalMoves (motorOpenDoor 7 7 w_opening) <> wrap32 (totalMoves w_opening + 1).
Proof. vm_compute. repeat split; congruence. Qed.

Lemma C1_requestOpen_acceptance_witness :
  motorState (motorOpenDoor 7 8 world0) = MOTOR_OPENING /\
  motorOpenDoor 7 8 w_closing = println LogMotorBusy w_closing.
Proof.
  split.
  - apply (proj1 (C1_requestOpen_acceptance 7 8 world0)). left. reflexivity.
  - apply (proj2 (C1_requestOpen_acceptance 7 8 w_closing)).
    split; discriminate.
Defined.

Section UpdateFacts.
Context {M : Type} `{AccelStepper M}.
Implicit Types w : World M.

Lemma motorUpdate_opening_arrived t1 t2 w :
  motorState w = MOTOR_OPENING ->
  distanceToGo (run (motor w)) = 0 ->
  motorState (motorUpdate t1 t2 w)
    = if manualMode w then MOTOR_MANUAL_OPEN else MOTOR_OPEN_HOLDING.
Proof.
  intros Hs Hd. unfold motorUpdate.
  destruct w as [m st t0 tm mm tot fl r1 r2 occ pop log]; simpl in *.
  subst st. simpl. rewrite bool_decide_eq_true_2 by exact Hd.
  case_bool_decide; destruct mm; reflexivity.
Qed.

(** C2.  An update in Opening with the actuator (after its [run]) at zero
    distance to go moves to ManualOpen when the manual flag is set, and
    otherwise to OpenHolding with the hold-start time read from the clock;
    the failure counter is incremented exactly when the final position is
    not [POS_OPEN], and the transition is the same in both cases. *)
Theorem C2_opening_arrival t1 t2 w :
  motorState w = MOTOR_OPENING ->
  distanceToGo (run (motor w)) = 0 ->
  let w' := motorUpdate t1 t2 w in
  (manualMode w = true -> motorState w' = MOTOR_MANUAL_OPEN) /\
  (manualMode w = false ->
     motorState w' = MOTOR_OPEN_HOLDING /\ motorStateStartTime w' = t2) /\
  (currentPosition (run (motor w)) <> POS_OPEN ->
     failedMoves w' = wrap32 (failedMoves w + 1)) /\
  (currentPosition (run (motor w)) = POS_OPEN ->
     failedMoves w' = failedMoves w).
Proof.
  intros Hs Hd. cbv zeta. unfold motorUpdate.
  destruct w as [m st t0 tm mm tot fl r1 r2 occ pop log]; simpl in *.
  subst st. simpl. rewrite bool_decide_eq_true_2 by exact Hd.
  case_bool_decide as Hp; destruct mm; simpl;
    repeat split; intros; try reflexivity; try discriminate; congruence.
Qed.

(** The elapsed time the code computes is the true one as long as less
    than 2^32 ms lie between the two clock readings. *)
Lemma wrap32_elapsed (T0 T : Z) :
  0 <= T - T0 < 2 ^ 32 -> wrap32 (wrap32 T - wrap32 T0) = T - T0.
Proof.
  intros Hr. unfold wrap32.
  rewrite <- Zminus_mod. apply Z.mod_small. exact Hr.
Qed.

(** C3.  An update in OpenHolding whose clock reading lies at least
    [DOOR_HOLD_TIME_MS] = 3000 ms after the recorded hold start (the
    difference of the two 32-bit readings, which is the true elapsed time
    below 2^32 ms) aims the actuator at [POS_CLOSED] and moves to Closing;
    an update before that leaves the state OpenHolding. *)
Theorem C3_hold_then_close t1 t2 w :
  motorState w = MOTOR_OPEN_HOLDING ->
  let w' := motorUpdate t1 t2 w in
  DOOR_HOLD_TIME_MS = 3000 /\
  (DOOR_HOLD_TIME_MS <= wrap32 (t1 - motorStateStartTime w) ->
     motorState w' = MOTOR_CLOSING /\
     motor w' = moveTo POS_CLOSED (run (motor w)) /\
     motorMoveStartTime w' = t2) /\
  (wrap32 (t1 - motorStateStartTime w) < DOOR_HOLD_TIME_MS ->
     motorState w' = MOTOR_OPEN_HOLDING /\
     w' = set_motor (run (motor w)) w) /\
  (forall T0 T, motorStateStartTime w = wrap32 T0 -> t1 = wrap32 T ->
     0 <= T - T0 < 2 ^ 32 ->
     wrap32 (t1 - motorStateStartTime w) = T - T0).
Proof.
  intros Hs. cbv zeta. unfold motorUpdate.
  destruct w as [m st t0 tm mm tot fl r1 r2 occ pop log]; simpl in *.
  subst st. simpl. split; [reflexivity|]. split; [|split].
  - intros Hle. rewrite bool_decide_eq_true_2 by exact Hle.
    simpl. repeat split.
  - intros Hlt. rewrite bool_decide_eq_false_2 by lia.
    simpl. split; reflexivity.
  - intros T0 T -> -> Hr. now apply wrap32_elapsed.
Qed.

Lemma exec_error_stays (c : Command) w :
  is_close c = false ->
  motorState w = MOTOR_ERROR -> motorState (exec c w) = MOTOR_ERROR.
Proof.
  intros Hc Hs.
  destruct w as [m st t0 tm mm tot fl r1 r2 occ pop log]; simpl in *.
  subst st.
  destruct c; try discriminate; simpl; try reflexivity.
  unfold rfidCheckReader.
  destruct (_ && _).
  - set (w1 := if bool_decide (readerNumber = 1) then _ else _).
    assert (Hw1 : motorState w1 = MOTOR_ERROR).
    { unfold w1. repeat case_bool_decide; try reflexivity.
      - unfold barnAddGoat. simpl.
        destruct (barn_scan _ _ _ _); [reflexivity|].
        destruct (_ <? _)%nat; reflexivity.
      - unfold barnRemoveGoat. simpl.
        destruct (barn_scan _ _ _ _); reflexivity. }
    unfold motorIsIdle. rewrite Hw1. simpl. rewrite andb_false_r.
    destruct lastState; simpl; exact Hw1.
  - destruct (negb cardPresent); [|reflexivity].
    destruct lastState; reflexivity.
Qed.

(** C4, as the code has it.  No update, open request, manual open, reader poll
    or status read leaves Error: after every sequence of commands without
    a close the state is still Error.  A close request in Error is
    accepted like in any state other than Idle and moves to Closing. *)
Theorem C4_error_left_only_by_close (cs : list Command) (t1 : Z) w :
  motorState w = MOTOR_ERROR ->
  (forallb (fun c => negb (is_close c)) cs = true ->
     motorState (exec_all cs w) = MOTOR_ERROR) /\
  motorState (motorCloseDoor t1 w) = MOTOR_CLOSING.
Proof.
  intros Hs. split.
  - revert w Hs. induction cs as [|c cs IH]; intros w Hs Hall.
    + exact Hs.
    + simpl in Hall. apply andb_true_iff in Hall as [Hc Hall].
      unfold exec_all in *. simpl. apply IH; [|exact Hall].
      apply exec_error_stays; [|exact Hs].
      now destruct (is_close c).
  - rewrite motorCloseDoor_accept; [reflexivity|]. rewrite Hs. discriminate.
Qed.
End UpdateFacts.

Lemma C2_opening_arrival_witness :
  motorState (motorUpdate 10 11 w_drift) = MOTOR_OPEN_HOLDING /\
  motorStateStartTime (motorUpdate 10 11 w_drift) = 11 /\
  failedMoves (motorUpdate 10 11 w_drift) = wrap32 (failedMoves w_drift + 1).
Proof.
  pose proof (C2_opening_arrival 10 11 w_drift eq_refl eq_refl) as (_ & Hh & Hf & _).
  destruct (Hh eq_refl) as [Hst Ht].
  split; [exact Hst | split; [exact Ht |]].
  apply Hf. vm_compute. discriminate.
Defined.

Lemma C3_hold_then_close_witness :
  motorState (motorUpdate 8000 8001 w_holding) = MOTOR_CLOSING /\
  motorState (motorUpdate 7999 8000 w_holding) = MOTOR_OPEN_HOLDING.
Proof.
  split.
  - apply (C3_hold_then_close 8000 8001 w_holding eq_refl). vm_compute. discriminate.
  - apply (C3_hold_then_close 7999 8000 w_holding eq_refl). vm_compute. reflexivity.
Defined.

(** C4, counterexample to "Error is terminal under every command": one
    close request takes the controller from Error to Closing. *)
Lemma C4_close_leaves_error :
  motorState w_error = MOTOR_ERROR /\
  motorState (exec_all [CmdClose 0] w_error) <> MOTOR_ERROR.
Proof. vm_compute. split; [reflexivity | discriminate]. Qed.

Lemma C4_error_left_only_by_close_witness :
  motorState (exec_all [CmdUpdate 1 1; CmdOpen 2 2; CmdManualOpen 3 3] w_error)
    = MOTOR_ERROR /\
  motorState (motorCloseDoor 4 w_error) = MOTOR_CLOSING.
Proof.
  split.
  - apply (C4_error_left_only_by_close
             [CmdUpdate 1 1; CmdOpen 2 2; CmdManualOpen 3 3] 4 w_error eq_refl).
    reflexivity.
  - apply (C4_error_left_only_by_close [] 4 w_error eq_refl).
Defined.

(** ** Occupancy tracker *)

Section ScanFacts.
Local Open Scope nat_scope.
Implicit Types arr l : list string.

Lemma barn_scan_Some name arr i n k :
  barn_scan name arr i n = Some k ->
  i <= k < i + n /\ arr !! k = Some name /\
  forall j, i <= j < k -> arr !! j <> Some name.
Proof.
  revert i. induction n as [|n IH]; intros i; simpl; [discriminate|].
  case_bool_decide as Hi.
  - intros [= <-]. split; [lia|]. split; [exact Hi|]. intros j Hj; lia.
  - intros Hk. destruct (IH _ Hk) as (Hr & Hn & Hb).
    split; [lia|]. split; [exact Hn|].
    intros j Hj. destruct (decide (j = i)) as [->|Hne]; [exact Hi|].
    apply Hb. lia.
Qed.

Lemma barn_scan_None name arr i n :
  barn_scan name arr i n = None <->
  forall j, i <= j < i + n -> arr !! j <> Some name.
Proof.
  revert i. induction n as [|n IH]; intros i; simpl.
  - split; [intros _ j Hj; lia | reflexivity].
  - case_bool_decide as Hi.
    + split; [discriminate|]. intros Hall. exfalso.
      apply (Hall i); [lia | exact Hi].
    + rewrite IH. split; intros Hall j Hj.
      * destruct (decide (j = i)) as [->|Hne]; [exact Hi|]. apply Hall. lia.
      * apply Hall. lia.
Qed.

Lemma barn_scan_None_take name arr pop :
  barn_scan name arr 0 pop = None <-> name ∉ take pop arr.
Proof.
  rewrite barn_scan_None, list_elem_of_lookup. split.
  - intros Hall [j Hj]. apply lookup_take_Some in Hj as [Hj Hlt].
    apply (Hall j); [lia | exact Hj].
  - intros Hno j Hj Hl. apply Hno. exists j.
    apply lookup_take_Some. split; [exact Hl | lia].
Qed.

Lemma barn_shift_length arr j n : length (barn_shift arr j n) = length arr.
Proof.
  revert arr j. induction n as [|n IH]; intros arr j; simpl; [reflexivity|].
  rewrite IH. destruct (arr !! S j); [apply length_insert | reflexivity].
Qed.

Lemma barn_shift_lookup arr j n k :
  j + n < length arr ->
  barn_shift arr j n !! k =
    if decide (j <= k < j + n) then arr !! S k else arr !! k.
Proof.
  revert arr j. induction n as [|n IH]; intros arr j Hlen; simpl.
  - case_decide; [lia | reflexivity].
  - destruct (lookup_lt_is_Some_2 arr (S j)) as [x Hx]; [lia|].
    rewrite Hx, IH by (rewrite length_insert; lia).
    destruct (decide (k = j)) as [->|Hne].
    + rewrite decide_False by lia. rewrite decide_True by lia.
      rewrite list_lookup_insert_eq by lia. now rewrite Hx.
    + repeat case_decide; try lia;
        now rewrite list_lookup_insert_ne by lia.
Qed.

Lemma barn_shift_take arr pop i :
  i < pop -> pop <= length arr ->
  take (pop - 1) (barn_shift arr i (pop - 1 - i)) = delete i (take pop arr).
Proof.
  intros Hi Hpop. apply list_eq. intros k.
  rewrite list_lookup_delete.
  destruct (decide (k < pop - 1)) as [Hk|Hk].
  - rewrite lookup_take_lt by exact Hk.
    rewrite barn_shift_lookup by lia.
    repeat case_decide; try lia; now rewrite lookup_take_lt by lia.
  - rewrite lookup_take_ge by lia.
    case_decide; [lia|]. now rewrite lookup_take_ge by lia.
Qed.

Lemma removeIfPresent_absent name l :
  name ∉ l -> removeIfPresent name l = l.
Proof.
  induction l as [|x l IH]; simpl; [reflexivity|].
  rewrite not_elem_of_cons. intros [Hne Hl].
  rewrite bool_decide_eq_false_2 by congruence. now rewrite IH.
Qed.

Lemma removeIfPresent_delete name l i :
  l !! i = Some name -> (forall j, j < i -> l !! j <> Some name) ->
  removeIfPresent name l = delete i l.
Proof.
  revert i. induction l as [|x l IH]; intros i Hi Hb; [reflexivity|].
  destruct i as [|i]; simpl in *.
  - injection Hi as ->. now rewrite bool_decide_eq_true_2.
  - rewrite bool_decide_eq_false_2.
    + f_equal. apply IH; [exact Hi|]. intros j Hj. apply (Hb (S j)). lia.
    + intros ->. now apply (Hb 0); [lia|].
Qed.

Lemma removeIfPresent_sublist name l : removeIfPresent name l `sublist_of` l.
Proof.
  induction l as [|x l IH]; simpl; [constructor|].
  case_bool_decide; [now apply sublist_cons | now apply sublist_skip].
Qed.

Lemma removeIfPresent_filter name l :
  NoDup l -> removeIfPresent name l = filter (fun x => x <> name) l.
Proof.
  induction 1 as [|x l Hx Hl IH]; simpl; [reflexivity|].
  case_bool_decide as Hn.
  - subst x. rewrite filter_cons_False by tauto.
    rewrite <- removeIfPresent_absent at 1 by exact Hx. exact IH.
  - rewrite filter_cons_True by exact Hn. now rewrite IH.
Qed.

Lemma removeIfPresent_length name l :
  name ∈ l -> S (length (removeIfPresent name l)) = length l.
Proof.
  induction l as [|x l IH]; simpl.
  - intros Hin. now apply elem_of_nil in Hin.
  - case_bool_decide as Hn; [reflexivity|].
    rewrite elem_of_cons. intros [->|Hin]; [congruence|].
    simpl. now rewrite IH.
Qed.

Lemma addIfAbsent_NoDup name l : NoDup l -> NoDup (addIfAbsent name l).
Proof.
  intros Hl. unfold addIfAbsent.
  case_bool_decide as Hin; [exact Hl|].
  destruct (_ <? _); [|exact Hl].
  apply NoDup_app. split; [exact Hl|]. split; [|apply NoDup_singleton].
  intros x Hx Hx'. apply list_elem_of_singleton in Hx'. congruence.
Qed.

Lemma addIfAbsent_length name l :
  length l <= MAX_GOATS_IN_BARN ->
  length (addIfAbsent name l) <= MAX_GOATS_IN_BARN.
Proof.
  intros Hl. unfold addIfAbsent.
  case_bool_decide; [exact Hl|].
  destruct (Nat.ltb_spec (length l) MAX_GOATS_IN_BARN) as [Hlt|_]; [|exact Hl].
  rewrite length_app. simpl. lia.
Qed.
End ScanFacts.

Section BarnFacts.
Context {M : Type}.
Implicit Types w : World M.
Local Open Scope nat_scope.

Lemma occupants_length w : barn_wf w -> length (occupants w) = barnPopulation w.
Proof. intros [Hl Hp]. unfold occupants. apply length_take_le. lia. Qed.

Lemma barnAddGoat_present name w :
  name ∈ occupants w ->
  barnAddGoat name w = println (LogBarnAlreadyInside name) w.
Proof.
  intros Hin. unfold barnAddGoat.
  destruct (barn_scan _ _ _ _) eqn:Hs; [reflexivity|].
  apply barn_scan_None_take in Hs. contradiction.
Qed.

Lemma barnAddGoat_full name w :
  name ∉ occupants w -> barnPopulation w = MAX_GOATS_IN_BARN ->
  barnAddGoat name w = println LogBarnFull w.
Proof.
  intros Hin Hfull. unfold barnAddGoat.
  apply barn_scan_None_take in Hin. rewrite Hin, Hfull. reflexivity.
Qed.

Lemma barnAddGoat_refines name w :
  barn_wf w ->
  barn_wf (barnAddGoat name w) /\
  occupants (barnAddGoat name w) = addIfAbsent name (occupants w).
Proof.
  intros Hwf. pose proof (occupants_length w Hwf) as Hlen.
  destruct Hwf as [Hl Hp]. unfold addIfAbsent. rewrite Hlen.
  case_bool_decide as Hin.
  - rewrite barnAddGoat_present by exact Hin. now split.
  - unfold barnAddGoat.
    rewrite (proj2 (barn_scan_None_take _ _ _) Hin).
    destruct (Nat.ltb_spec (barnPopulation w) MAX_GOATS_IN_BARN) as [Hlt|Hge];
      [|now split].
    unfold barn_wf, occupants. simpl. rewrite length_insert.
    split; [split; [exact Hl | lia]|].
    rewrite (take_S_r _ _ name) by (apply list_lookup_insert_eq; lia).
    now rewrite take_insert_ge by lia.
Qed.

Lemma barnRemoveGoat_refines name w :
  barn_wf w ->
  barn_wf (barnRemoveGoat name w) /\
  occupants (barnRemoveGoat name w) = removeIfPresent name (occupants w).
Proof.
  intros [Hl Hp]. unfold barnRemoveGoat.
  destruct (barn_scan _ _ _ _) as [i|] eqn:Hs.
  - apply barn_scan_Some in Hs as (Hi & Hn & Hb).
    unfold barn_wf, occupants. simpl. rewrite barn_shift_length.
    split; [split; [exact Hl | lia]|].
    rewrite barn_shift_take by lia. symmetry.
    apply removeIfPresent_delete.
    + rewrite lookup_take_lt by lia. exact Hn.
    + intros j Hj. rewrite lookup_take_lt by lia. apply Hb. lia.
  - apply barn_scan_None_take in Hs.
    split; [now split|]. symmetry. now apply removeIfPresent_absent.
Qed.

Lemma run_barn_refines (os : list BarnOp) w :
  barn_wf w ->
  barn_wf (run_barn os w) /\
  occupants (run_barn os w)
    = fold_left (fun l o => spec_barn_op o l) os (occupants w).
Proof.
  revert w. induction os as [|o os IH]; intros w Hwf; [now split|].
  unfold run_barn in *. simpl.
  destruct o as [name|name]; simpl.
  - destruct (barnAddGoat_refines name w Hwf) as [Hwf' <-]. now apply IH.
  - destruct (barnRemoveGoat_refines name w Hwf) as [Hwf' <-]. now apply IH.
Qed.

Lemma spec_run_invariant (os : list BarnOp) (l : list string) :
  NoDup l -> length l <= MAX_GOATS_IN_BARN ->
  NoDup (fold_left (fun l o => spec_barn_op o l) os l) /\
  length (fold_left (fun l o => spec_barn_op o l) os l) <= MAX_GOATS_IN_BARN.
Proof.
  revert l. induction os as [|o os IH]; intros l Hnd Hlen; [now split|].
  simpl. apply IH; destruct o as [name|name]; simpl.
  - now apply addIfAbsent_NoDup.
  - eapply sublist_NoDup; [exact Hnd | apply removeIfPresent_sublist].
  - now apply addIfAbsent_length.
  - pose proof (sublist_length _ _ (removeIfPresent_sublist name l)). lia.
Qed.

Lemma initial_world_wf (m : M) :
  barn_wf (initial_world m) /\ occupants (initial_world m) = [].
Proof. split; [split|]; vm_compute; first [reflexivity | lia]. Qed.

(** C6.  After any sequence of [barnAddGoat] and [barnRemoveGoat] calls
    from the initial (empty) barn, the occupancy list has no two equal
    names and at most [MAX_GOATS_IN_BARN] = 10 entries; adding a name that is
    present, or adding at full capacity, only prints a line: array, counter
    and every other global stay as they were. *)
Theorem C6_no_duplicates_within_capacity (os : list BarnOp) (m : M) :
  let w := run_barn os (initial_world m) in
  NoDup (occupants w) /\
  length (occupants w) = barnPopulation w /\
  barnPopulation w <= MAX_GOATS_IN_BARN /\
  MAX_GOATS_IN_BARN = 10 /\
  (forall name, name ∈ occupants w ->
     barnAddGoat name w = println (LogBarnAlreadyInside name) w) /\
  (forall name, barnPopulation w = MAX_GOATS_IN_BARN -> name ∉ occupants w ->
     barnAddGoat name w = println LogBarnFull w).
Proof.
  cbv zeta.
  destruct (initial_world_wf m) as [Hwf0 Hocc0].
  destruct (run_barn_refines os _ Hwf0) as [Hwf Hocc].
  destruct (spec_run_invariant os [] (NoDup_nil_2 (A:=string))) as [Hnd Hlen];
    [simpl; lia|].
  rewrite Hocc0 in Hocc.
  split; [rewrite Hocc; exact Hnd|].
  split; [now apply occupants_length|].
  split; [apply Hwf|]. split; [reflexivity|].
  split.
  - intros name. apply barnAddGoat_present.
  - intros name Hfull Hin. now apply barnAddGoat_full.
Qed.

(** C7.  On an occupancy list (distinct names, within capacity) that
    contains [name], removing [name] and adding it back gives the other
    names in their old relative order followed by [name]: the size is the
    old one and [name] is last. *)
Theorem C7_remove_then_add_moves_to_end (name : string) w :
  barn_wf w -> NoDup (occupants w) -> name ∈ occupants w ->
  let w' := barnAddGoat name (barnRemoveGoat name w) in
  occupants w' = filter (fun x => x <> name) (occupants w) ++ [name] /\
  length (occupants w') = length (occupants w) /\
  last (occupants w') = Some name.
Proof.
  intros Hwf Hnd Hin. cbv zeta.
  destruct (barnRemoveGoat_refines name w Hwf) as [Hwf1 Ho1].
  destruct (barnAddGoat_refines name _ Hwf1) as [Hwf2 Ho2].
  pose proof (removeIfPresent_length name _ Hin) as Hlen.
  pose proof (occupants_length w Hwf) as Hpop.
  assert (Heq : occupants (barnAddGoat name (barnRemoveGoat name w))
                = filter (fun x => x <> name) (occupants w) ++ [name]).
  { rewrite Ho2, Ho1. unfold addIfAbsent.
    rewrite removeIfPresent_filter in * by exact Hnd.
    rewrite bool_decide_eq_false_2.
    - destruct (Nat.ltb_spec
                  (length (filter (fun x => x <> name) (occupants w)))
                  MAX_GOATS_IN_BARN) as [_|Hge]; [reflexivity|].
      destruct Hwf as [_ Hp]. lia.
    - rewrite list_elem_of_filter. tauto. }
  split; [exact Heq|]. rewrite Heq. split.
  - rewrite length_app. simpl.
    rewrite <- removeIfPresent_filter by exact Hnd. lia.
  - apply last_snoc.
Qed.
End BarnFacts.

Lemma C6_no_duplicates_within_capacity_witness :
  NoDup (occupants w_two) /\
  barnAddGoat "Bron" w_two = println (LogBarnAlreadyInside "Bron") w_two /\
  barnAddGoat "Extra" w_full = println LogBarnFull w_full.
Proof.
  split; [|split].
  - apply (C6_no_duplicates_within_capacity
             [Add "Bron"; Add "TFrance"; Remove "Bron"; Add "Bron"]%string
             (stepper_at 0 0)).
  - apply (C6_no_duplicates_within_capacity
             [Add "Bron"; Add "TFrance"; Remove "Bron"; Add "Bron"]%string
             (stepper_at 0 0)).
    apply (list_elem_of_lookup_2 _ 1%nat). reflexivity.
  - apply (C6_no_duplicates_within_capacity
             (map Add ["g0"; "g1"; "g2"; "g3"; "g4"; "g5"; "g6"; "g7"; "g8"; "g9"]%string)
             (stepper_at 0 0)).
    + reflexivity.
    + apply (bool_decide_eq_false_1 _). vm_compute. reflexivity.
Defined.

Lemma C7_remove_then_add_moves_to_end_witness :
  occupants w_two = ["TFrance"; "Bron"]%string /\
  occupants (barnAddGoat "TFrance" (barnRemoveGoat "TFrance" w_two))
    = ["Bron"; "TFrance"]%string.
Proof.
  split; [reflexivity|].
  refine (proj1 (C7_remove_then_add_moves_to_end "TFrance" w_two _ _ _)).
  - split; vm_compute; [reflexivity | lia].
  - apply (bool_decide_eq_true_1 _). vm_compute. reflexivity.
  - apply (list_elem_of_lookup_2 _ 0%nat). reflexivity.
Defined.

(** ** Access event dispatcher *)

Lemma count_log_snoc (f : LogMsg -> bool) (l : list LogMsg) (m : LogMsg) :
  count_log f (l ++ [m]) = (count_log f l + (if f m then 1 else 0))%nat.
Proof.
  unfold count_log. rewrite List.filter_app, length_app. simpl.
  destruct (f m); reflexivity.
Qed.

Section DispatcherFacts.
Context {M : Type} `{AccelStepper M}.
Implicit Types w : World M.
Local Open Scope nat_scope.

(** What a call leaves alone and what it prints. *)
Lemma barnAddGoat_frame name w :
  let w' := barnAddGoat name w in
  motor w' = motor w /\ motorState w' = motorState w /\
  manualMode w' = manualMode w /\ totalMoves w' = totalMoves w /\
  lastCardStateR1 w' = lastCardStateR1 w /\
  lastCardStateR2 w' = lastCardStateR2 w /\
  exists m, is_barn_event m = true /\ is_open_request m = false /\
            serial w' = serial w ++ [m].
Proof.
  cbv zeta. unfold barnAddGoat.
  destruct (barn_scan _ _ _ _); [|destruct (_ <? _)]; simpl; one_line.
Qed.

Lemma barnRemoveGoat_frame name w :
  let w' := barnRemoveGoat name w in
  motor w' = motor w /\ motorState w' = motorState w /\
  manualMode w' = manualMode w /\ totalMoves w' = totalMoves w /\
  lastCardStateR1 w' = lastCardStateR1 w /\
  lastCardStateR2 w' = lastCardStateR2 w /\
  exists m, is_barn_event m = true /\ is_open_request m = false /\
            serial w' = serial w ++ [m].
Proof.
  cbv zeta. unfold barnRemoveGoat.
  destruct (barn_scan _ _ _ _); simpl; one_line.
Qed.

Lemma motorOpenDoor_frame t1 t2 w :
  let w' := motorOpenDoor t1 t2 w in
  lastCardStateR1 w' = lastCardStateR1 w /\
  lastCardStateR2 w' = lastCardStateR2 w /\
  exists m, is_barn_event m = false /\ is_open_request m = true /\
            serial w' = serial w ++ [m].
Proof.
  cbv zeta. unfold motorOpenDoor.
  destruct (_ && _); simpl; one_line.
Qed.

Lemma get_set_flag (r : FlagRef) (b : bool) w : get_flag r (set_flag r b w) = b.
Proof. destruct r; reflexivity. Qed.

Lemma serial_set_flag (r : FlagRef) (b : bool) w :
  serial (set_flag r b w) = serial w.
Proof. destruct r; reflexivity. Qed.

Lemma get_flag_frame (r : FlagRef) w w' :
  lastCardStateR1 w' = lastCardStateR1 w ->
  lastCardStateR2 w' = lastCardStateR2 w ->
  get_flag r w' = get_flag r w.
Proof. intros H1 H2. destruct r; simpl; assumption. Qed.

(** The card is still on the reader: the poll does nothing at all. *)
Lemma rfidCheckReader_held uid n r t1 t2 w :
  get_flag r w = true -> rfidCheckReader true uid n r t1 t2 w = w.
Proof. intros Hf. unfold rfidCheckReader. rewrite Hf. reflexivity. Qed.

(** No card: only the channel flag is reset. *)
Lemma rfidCheckReader_absent uid n r t1 t2 w :
  rfidCheckReader false uid n r t1 t2 w = set_flag r false w.
Proof. reflexivity. Qed.

Lemma run_present_held n r ps w :
  get_flag r w = true -> run_present n r ps w = w.
Proof.
  intros Hf. unfold run_present.
  induction ps as [|p ps IH]; simpl; [reflexivity|].
  unfold poll_present at 2. rewrite rfidCheckReader_held by exact Hf.
  exact IH.
Qed.

(** The rising edge: one barn call, at most one open request, flag set. *)
Lemma rfidCheckReader_edge uid n r t1 t2 w :
  n = 1%Z \/ n = 2%Z -> get_flag r w = false ->
  let w' := rfidCheckReader true uid n r t1 t2 w in
  get_flag r w' = true /\
  count_log is_barn_event (serial w') = S (count_log is_barn_event (serial w)) /\
  count_log is_open_request (serial w')
    <= S (count_log is_open_request (serial w)).
Proof.
  intros Hn Hf. cbv zeta. unfold rfidCheckReader. rewrite Hf. simpl.
  set (goat := match rfidIdentifyGoat uid with Some g => g | None => _ end).
  set (w0 := println (LogRfidDetected n goat uid) w).
  set (w1 := if bool_decide (n = 1%Z) then _ else _).
  assert (Hw1 : exists m, is_barn_event m = true /\ is_open_request m = false /\
                          serial w1 = serial w0 ++ [m]).
  { unfold w1. destruct Hn as [-> | ->]; simpl.
    - apply (barnAddGoat_frame goat w0).
    - apply (barnRemoveGoat_frame goat w0). }
  destruct Hw1 as (m1 & Hb1 & Ho1 & Hs1).
  rewrite get_set_flag, serial_set_flag. split; [reflexivity|].
  destruct (negb (manualMode w1) && motorIsIdle w1).
  - destruct (motorOpenDoor_frame t1 t2 w1) as (_ & _ & m2 & Hb2 & Ho2 & Hs2).
    rewrite Hs2, Hs1. unfold w0. simpl.
    rewrite !count_log_snoc, Hb1, Hb2, Ho1, Ho2. simpl. lia.
  - simpl. rewrite Hs1. unfold w0. simpl.
    rewrite !count_log_snoc, Hb1, Ho1. simpl. lia.
Qed.

(** C5.  Over a run of polls of one channel with the card present all
    along, starting from a cleared channel flag, everything happens on the
    first poll: the later polls change nothing, so the run as a whole makes
    exactly one occupancy call (add on reader 1, remove on reader 2) and at
    most one door-open request.  A poll without a card changes nothing but
    the channel flag, which it clears, so that the next presence is a
    rising edge again. *)
Theorem C5_one_event_per_presence (n : Z) (r : FlagRef)
    (p : Uid * (Z * Z)) (ps : list (Uid * (Z * Z))) w :
  n = 1%Z \/ n = 2%Z -> get_flag r w = false ->
  let w1 := poll_present n r w p in
  let w' := run_present n r (p :: ps) w in
  w' = w1 /\
  count_log is_barn_event (serial w') = S (count_log is_barn_event (serial w)) /\
  count_log is_open_request (serial w')
    <= S (count_log is_open_request (serial w)) /\
  (forall uid t1 t2 w0,
     rfidCheckReader false uid n r t1 t2 w0 = set_flag r false w0 /\
     get_flag r (rfidCheckReader false uid n r t1 t2 w0) = false).
Proof.
  intros Hn Hf. cbv zeta.
  destruct (rfidCheckReader_edge (fst p) n r (fst (snd p)) (snd (snd p)) w Hn Hf)
    as (Hflag & Hbarn & Hopen).
  assert (Hrun : run_present n r (p :: ps) w = poll_present n r w p).
  { unfold run_present. simpl. apply run_present_held. exact Hflag. }
  rewrite Hrun. split; [reflexivity|]. split; [exact Hbarn|].
  split; [exact Hopen|].
  intros uid t1 t2 w0. rewrite rfidCheckReader_absent.
  split; [reflexivity | apply get_set_flag].
Qed.
End DispatcherFacts.

Lemma C5_one_event_per_presence_witness :
  occupants (run_present 1 RefR1
               [(uid_bron, (10, 10)); (uid_bron, (11, 11)); (uid_bron, (12, 12))]
               world0)
    = ["Bron"]%string /\
  count_log is_barn_event
    (serial (run_present 1 RefR1
               [(uid_bron, (10, 10)); (uid_bron, (11, 11)); (uid_bron, (12, 12))]
               world0)) = 1%nat.
Proof.
  destruct (C5_one_event_per_presence 1 RefR1 (uid_bron, (10, 10))
              [(uid_bron, (11, 11)); (uid_bron, (12, 12))] world0
              (or_introl eq_refl) eq_refl) as (Hrun & Hbarn & _).
  split.
  - rewrite Hrun. reflexivity.
  - exact Hbarn.
Defined.

(** ** Status service *)

Lemma append_assoc (a b c : string) : ((a +:+ b) +:+ c = a +:+ (b +:+ c))%string.
Proof.
  induction a as [|x a IH]; [reflexivity | exact (f_equal (String x) IH)].
Qed.

Lemma append_nil_r (a : string) : (a +:+ "" = a)%string.
Proof.
  induction a as [|x a IH]; [reflexivity | exact (f_equal (String x) IH)].
Qed.

Lemma json_goats_concat (arr : list string) (pop i n : nat) (json : string) :
  (i + n = pop)%nat -> (pop <= length arr)%nat ->
  json_goats arr pop i n json
    = (json +:+ String.concat "," (map quoted (drop i (take pop arr))))%string.
Proof.
  revert i json. induction n as [|n IH]; intros i json Hi Hpop.
  - simpl. rewrite drop_ge by (rewrite length_take; lia).
    simpl. now rewrite append_nil_r.
  - destruct (lookup_lt_is_Some_2 arr i) as [x Hx]; [lia|].
    assert (Hd : drop i (take pop arr) = x :: drop (S i) (take pop arr)).
    { apply drop_S. rewrite lookup_take_lt by lia. exact Hx. }
    rewrite Hd. cbn [json_goats]. rewrite Hx. cbn [default from_option].
    rewrite IH by lia.
    destruct (Nat.ltb_spec i (pop - 1)) as [Hlt|Hge].
    + destruct (drop (S i) (take pop arr)) as [|z zs] eqn:Hrest.
      { apply (f_equal length) in Hrest.
        rewrite length_drop, length_take in Hrest. simpl in Hrest. lia. }
      change (String.concat "," (map quoted (x :: z :: zs)))
        with (quoted x +:+ "," +:+ String.concat "," (map quoted (z :: zs)))%string.
      generalize (String.concat "," (map quoted (z :: zs))). intros rest.
      unfold quoted. rewrite !append_assoc. reflexivity.
    + rewrite drop_ge by (rewrite length_take; lia).
      cbn [map String.concat]. rewrite append_nil_r. reflexivity.
Qed.

Section StatusFacts.
Context {M : Type} `{AccelStepper M}.
Implicit Types w : World M.

(** C8.  [webHandleDoorOpen] answers 200, text/plain, "OK" in every
    state.  In a state where [motorOpenDoor] rejects the command (any
    state but Idle and ManualOpen, so Closing in particular) the door state
    after the call is the one before. *)
Theorem C8_postOpen_always_ok t1 t2 w :
  snd (webHandleDoorOpen t1 t2 w)
    = {| status := 200; content_type := "text/plain"; body := "OK" |} /\
  (motorState w = MOTOR_CLOSING ->
     motorState (fst (webHandleDoorOpen t1 t2 w)) = MOTOR_CLOSING) /\
  (motorState w <> MOTOR_IDLE -> motorState w <> MOTOR_MANUAL_OPEN ->
     motorState (fst (webHandleDoorOpen t1 t2 w)) = motorState w /\
     motor (fst (webHandleDoorOpen t1 t2 w)) = motor w).
Proof.
  split; [reflexivity|].
  assert (Hrej : motorState w <> MOTOR_IDLE -> motorState w <> MOTOR_MANUAL_OPEN ->
                 motorState (fst (webHandleDoorOpen t1 t2 w)) = motorState w /\
                 motor (fst (webHandleDoorOpen t1 t2 w)) = motor w).
  { intros H1 H2. unfold webHandleDoorOpen, motorManualOpen. simpl.
    rewrite motorOpenDoor_reject by assumption. split; reflexivity. }
  split; [|exact Hrej].
  intros Hs. destruct Hrej as [Hst _]; [rewrite Hs; discriminate ..|].
  now rewrite Hst.
Qed.

Lemma motorGetStatus_token w : motorGetStatus w ∈ door_tokens.
Proof.
  unfold motorGetStatus, door_tokens.
  destruct (motorState w); repeat first [apply list_elem_of_here | apply list_elem_of_further].
Qed.

(** C9.  With the barn array well formed, [webHandleAPI] answers 200,
    application/json and the body
    [{"count":n,"doorStatus":"token","goats":["name",...]}] where the names
    are the occupancy list in array order, [n] is their number in decimal,
    and the token is one of closed, opening, open, manual_open, closing,
    error; the globals are not touched.  Array order is insertion order:
    an accepted add appends at the end of the list. *)
Theorem C9_status_json w :
  barn_wf w ->
  snd (webHandleAPI w)
    = {| status := 200; content_type := "application/json";
         body := spec_status_json (occupants w) (motorGetStatus w) |} /\
  length (occupants w) = barnPopulation w /\
  motorGetStatus w ∈ door_tokens /\
  fst (webHandleAPI w) = w /\
  (forall name, occupants (barnAddGoat name w) = addIfAbsent name (occupants w)).
Proof.
  intros Hwf. pose proof (occupants_length w Hwf) as Hlen.
  split; [|split; [exact Hlen | split; [apply motorGetStatus_token |]]];
    [|split; [reflexivity | intros name; now apply barnAddGoat_refines]].
  destruct Hwf as [Hl Hp].
  unfold webHandleAPI, spec_status_json. simpl. f_equal.
  rewrite json_goats_concat by lia.
  rewrite Hlen, drop_0. fold (occupants w).
  unfold quoted. rewrite !append_assoc. reflexivity.
Qed.
End StatusFacts.

Lemma C8_postOpen_always_ok_witness :
  body (snd (webHandleDoorOpen 5 5 w_closing)) = "OK"%string /\
  motorState (fst (webHandleDoorOpen 5 5 w_closing)) = MOTOR_CLOSING.
Proof.
  destruct (C8_postOpen_always_ok 5 5 w_closing) as (Hr & Hc & _).
  split; [rewrite Hr; reflexivity | exact (Hc eq_refl)].
Defined.

(** The rendering example of the specification: occupancy [Bron], door
    Opening. *)
Lemma C9_status_json_witness :
  occupants w_bron = ["Bron"]%string /\
  motorState w_bron = MOTOR_OPENING /\
  body (snd (webHandleAPI w_bron))
    = ("{" +:+ dquote +:+ "count" +:+ dquote +:+ ":1," +:+ dquote +:+ "doorStatus"
       +:+ dquote +:+ ":" +:+ dquote +:+ "opening" +:+ dquote +:+ ","
       +:+ dquote +:+ "goats" +:+ dquote +:+ ":[" +:+ dquote +:+ "Bron" +:+ dquote
       +:+ "]}")%string.
Proof.
  split; [reflexivity | split; [reflexivity|]].
  assert (Hwf : barn_wf w_bron) by (split; vm_compute; [reflexivity | lia]).
  rewrite (proj1 (C9_status_json w_bron Hwf)). reflexivity.
Defined.

(** ** The manual flag *)

Section ManualFlag.
Context {M : Type} `{AccelStepper M}.
Implicit Types w : World M.

Lemma set_flag_frame (r : FlagRef) (b : bool) w :
  motor (set_flag r b w) = motor w /\
  motorState (set_flag r b w) = motorState w /\
  manualMode (set_flag r b w) = manualMode w /\
  totalMoves (set_flag r b w) = totalMoves w.
Proof. destruct r; repeat split. Qed.

(** While the manual flag is set a poll never reaches [motorOpenDoor]. *)
Lemma rfidCheckReader_manual cp uid n r t1 t2 w :
  manualMode w = true ->
  let w' := rfidCheckReader cp uid n r t1 t2 w in
  motor w' = motor w /\ motorState w' = motorState w /\
  manualMode w' = true /\ totalMoves w' = totalMoves w /\
  count_log is_open_request (serial w') = count_log is_open_request (serial w).
Proof.
  intros Hm. cbv zeta. unfold rfidCheckReader.
  destruct (cp && negb (get_flag r w)).
  - set (goat := match rfidIdentifyGoat uid with Some g => g | None => _ end).
    set (w0 := println (LogRfidDetected n goat uid) w).
    set (w1 := if bool_decide (n = 1) then _ else _).
    assert (Hw1 : motor w1 = motor w /\ motorState w1 = motorState w /\
                  manualMode w1 = true /\ totalMoves w1 = totalMoves w /\
                  count_log is_open_request (serial w1)
                    = count_log is_open_request (serial w)).
    { unfold w1. repeat case_bool_decide.
      - destruct (barnAddGoat_frame goat w0)
          as (-> & -> & -> & -> & _ & _ & m & _ & Ho & ->).
        unfold w0. simpl. rewrite !count_log_snoc, Ho. simpl.
        repeat split; first [exact Hm | lia].
      - destruct (barnRemoveGoat_frame goat w0)
          as (-> & -> & -> & -> & _ & _ & m & _ & Ho & ->).
        unfold w0. simpl. rewrite !count_log_snoc, Ho. simpl.
        repeat split; first [exact Hm | lia].
      - unfold w0. simpl. rewrite count_log_snoc. simpl.
        repeat split; first [exact Hm | lia]. }
    destruct Hw1 as (Hmo & Hst & Hmm & Htot & Hcnt).
    rewrite Hmm. simpl.
    destruct (set_flag_frame r true (println LogRfidIgnored w1))
      as (-> & -> & -> & ->).
    rewrite serial_set_flag. simpl. rewrite count_log_snoc. simpl.
    repeat split; first [assumption | lia].
  - destruct (negb cp).
    + destruct (set_flag_frame r false w) as (-> & -> & -> & ->).
      rewrite serial_set_flag. repeat split. exact Hm.
    + repeat split. exact Hm.
Qed.

Lemma exec_keeps_manualMode (c : Command) w :
  manualMode w = true ->
  is_close c = false \/ motorState w = MOTOR_IDLE ->
  manualMode (exec c w) = true.
Proof.
  intros Hm Hc. destruct c; simpl.
  - now rewrite motorUpdate_manualMode.
  - now rewrite motorOpenDoor_manualMode.
  - unfold motorManualOpen. now rewrite motorOpenDoor_manualMode.
  - destruct Hc as [Hc|Hs]; [discriminate|].
    now rewrite motorCloseDoor_idle.
  - destruct Hc as [Hc|Hs]; [discriminate|].
    unfold motorManualClose. now rewrite motorCloseDoor_idle.
  - apply (rfidCheckReader_manual cardPresent uid readerNumber lastState t1 t2 w Hm).
  - exact Hm.
Qed.

(** C10.  A manual open that is rejected still sets the manual flag:
    [webHandleDoorOpen] in Opening, OpenHolding or Closing leaves the door
    state and the actuator as they were and leaves [manualMode] true.  With
    the flag set, an opening in progress ends in ManualOpen; no reader poll
    reaches [motorOpenDoor]; and the flag stays set through every sequence
    of commands in which no close request is accepted.  A close request in
    Idle returns without touching the flag; an accepted one clears it. *)
Theorem C10_rejected_manual_open_sets_flag :
  (forall t1 t2 w,
     motorState w = MOTOR_OPENING \/ motorState w = MOTOR_OPEN_HOLDING
       \/ motorState w = MOTOR_CLOSING ->
     let w' := fst (webHandleDoorOpen t1 t2 w) in
     motorState w' = motorState w /\ motor w' = motor w /\
     totalMoves w' = totalMoves w /\ manualMode w' = true) /\
  (forall t1 t2 w,
     manualMode w = true -> motorState w = MOTOR_OPENING ->
     distanceToGo (run (motor w)) = 0 ->
     motorState (motorUpdate t1 t2 w) = MOTOR_MANUAL_OPEN) /\
  (forall cp uid n r t1 t2 w,
     manualMode w = true ->
     let w' := rfidCheckReader cp uid n r t1 t2 w in
     motorState w' = motorState w /\ motor w' = motor w /\
     totalMoves w' = totalMoves w /\
     count_log is_open_request (serial w')
       = count_log is_open_request (serial w)) /\
  (forall cs w,
     manualMode w = true -> no_close_accepted cs w = true ->
     manualMode (exec_all cs w) = true) /\
  (forall t1 w,
     motorState w = MOTOR_IDLE ->
     motorCloseDoor t1 w = println LogMotorAlreadyClosed w /\
     manualMode (motorCloseDoor t1 w) = manualMode w) /\
  (forall t1 w,
     motorState w <> MOTOR_IDLE -> manualMode (motorCloseDoor t1 w) = false).
Proof.
  repeat apply conj.
  - intros t1 t2 w Hs. cbv zeta.
    unfold webHandleDoorOpen, motorManualOpen. simpl.
    rewrite motorOpenDoor_reject; simpl;
      [repeat split | |]; destruct Hs as [-> | [-> | ->]]; discriminate.
  - intros t1 t2 w Hm Hs Hd.
    rewrite motorUpdate_opening_arrived by assumption. now rewrite Hm.
  - intros cp uid n r t1 t2 w Hm. cbv zeta.
    destruct (rfidCheckReader_manual cp uid n r t1 t2 w Hm)
      as (Hmo & Hst & _ & Htot & Hcnt).
    repeat split; assumption.
  - intros cs. induction cs as [|c cs IH]; intros w Hm Hno; [exact Hm|].
    simpl in Hno. apply andb_true_iff in Hno as [Hc Hno].
    unfold exec_all in *. simpl. apply IH; [|exact Hno].
    apply exec_keeps_manualMode; [exact Hm|].
    apply orb_true_iff in Hc as [Hc|Hc].
    + left. now destruct (is_close c).
    + right. now apply bool_decide_eq_true_1 in Hc.
  - intros t1 w Hs. rewrite motorCloseDoor_idle by exact Hs. now split.
  - intros t1 w Hs. now rewrite motorCloseDoor_accept.
Qed.
End ManualFlag.

(** A web "open" arrives while an automatic opening is under way: it is
    rejected, yet the opening then ends in ManualOpen, and a later tag scan
    does not move the door. *)
Lemma C10_rejected_manual_open_sets_flag_witness :
  manualMode w_auto = false /\
  motorState (fst (webHandleDoorOpen 20 20 w_auto)) = MOTOR_OPENING /\
  manualMode (fst (webHandleDoorOpen 20 20 w_auto)) = true /\
  motorState (motorUpdate 30 30 (fst (webHandleDoorOpen 20 20 w_auto)))
    = MOTOR_MANUAL_OPEN /\
  manualMode (exec_all [CmdUpdate 30 30; CmdPoll true uid_bron 1 RefR1 40 40;
                        CmdOpen 50 50]
                (fst (webHandleDoorOpen 20 20 w_auto))) = true.
Proof.
  destruct (@C10_rejected_manual_open_sets_flag IdealStepper ideal_stepper)
    as (Hrej & Harr & _ & Hkeep & _ & _).
  destruct (Hrej 20 20 w_auto (or_introl eq_refl)) as (Hst & _ & _ & Hmm).
  split; [reflexivity|]. split; [exact Hst|]. split; [exact Hmm|]. split.
  - apply Harr; [exact Hmm | exact Hst | reflexivity].
  - apply Hkeep; [exact Hmm | reflexivity].
Defined.
(** * Further properties of the sketch *)

(** ** Close requests, arrivals and the transition graph *)

Section ControllerMore.
Context {M : Type} `{AccelStepper M}.
Implicit Types w : World M.

(** What the occupancy calls leave alone: the whole controller and both
    reader flags. *)
Lemma barnAddGoat_controller name w :
  let w' := barnAddGoat name w in
  motor w' = motor w /\ motorState w' = motorState w /\
  motorStateStartTime w' = motorStateStartTime w /\
  motorMoveStartTime w' = motorMoveStartTime w /\
  manualMode w' = manualMode w /\ totalMoves w' = totalMoves w /\
  failedMoves w' = failedMoves w /\
  lastCardStateR1 w' = lastCardStateR1 w /\
  lastCardStateR2 w' = lastCardStateR2 w.
Proof.
  cbv zeta. unfold barnAddGoat.
  destruct (barn_scan _ _ _ _); [|destruct (_ <? _)%nat]; repeat split.
Qed.

Lemma barnRemoveGoat_controller name w :
  let w' := barnRemoveGoat name w in
  motor w' = motor w /\ motorState w' = motorState w /\
  motorStateStartTime w' = motorStateStartTime w /\
  motorMoveStartTime w' = motorMoveStartTime w /\
  manualMode w' = manualMode w /\ totalMoves w' = totalMoves w /\
  failedMoves w' = failedMoves w /\
  lastCardStateR1 w' = lastCardStateR1 w /\
  lastCardStateR2 w' = lastCardStateR2 w.
Proof.
  cbv zeta. unfold barnRemoveGoat.
  destruct (barn_scan _ _ _ _); repeat split.
Qed.

Lemma motorIsIdle_true w :
  motorIsIdle w = true <->
  motorState w = MOTOR_IDLE \/ motorState w = MOTOR_MANUAL_OPEN.
Proof.
  unfold motorIsIdle. rewrite orb_true_iff, !bool_decide_eq_true. tauto.
Qed.

(** The two outcomes of a poll for the controller: on a rising edge with no
    manual hold and the motor idle the open request is made and accepted;
    otherwise the controller is left alone.  The busy line is never
    printed. *)
Lemma rfidCheckReader_controller cp uid n r t1 t2 w :
  let w' := rfidCheckReader cp uid n r t1 t2 w in
  failedMoves w' = failedMoves w /\ manualMode w' = manualMode w /\
  count_log is_busy_line (serial w') = count_log is_busy_line (serial w) /\
  if cp && negb (get_flag r w) && negb (manualMode w) && motorIsIdle w
  then motor w' = moveTo POS_OPEN (motor w) /\ motorState w' = MOTOR_OPENING /\
       motorStateStartTime w' = t1 /\ motorMoveStartTime w' = t2 /\
       totalMoves w' = wrap32 (totalMoves w + 1) /\
       count_log is_open_request (serial w')
         = S (count_log is_open_request (serial w))
  else motor w' = motor w /\ motorState w' = motorState w /\
       motorStateStartTime w' = motorStateStartTime w /\
       motorMoveStartTime w' = motorMoveStartTime w /\
       totalMoves w' = totalMoves w /\
       count_log is_open_request (serial w')
         = count_log is_open_request (serial w).
Proof.
  cbv zeta. unfold rfidCheckReader.
  destruct cp; simpl.
  2:{ destruct r; simpl; repeat split. }
  destruct (get_flag r w) eqn:Hf; simpl.
  { repeat split. }
  set (goat := match rfidIdentifyGoat uid with Some g => g | None => _ end).
  set (w0 := println (LogRfidDetected n goat uid) w).
  set (w1 := if bool_decide (n = 1) then _ else _).
  assert (Hw1 : motor w1 = motor w /\ motorState w1 = motorState w /\
                motorStateStartTime w1 = motorStateStartTime w /\
                motorMoveStartTime w1 = motorMoveStartTime w /\
                manualMode w1 = manualMode w /\ totalMoves w1 = totalMoves w /\
                failedMoves w1 = failedMoves w /\
                count_log is_busy_line (serial w1)
                  = count_log is_busy_line (serial w) /\
                count_log is_open_request (serial w1)
                  = count_log is_open_request (serial w)).
  { unfold w1. repeat case_bool_decide.
    - destruct (barnAddGoat_controller goat w0)
        as (-> & -> & -> & -> & -> & -> & -> & _).
      repeat split; unfold barnAddGoat;
        (destruct (barn_scan _ _ _ _); [|destruct (_ <? _)%nat]); simpl;
        rewrite !count_log_snoc; simpl; lia.
    - destruct (barnRemoveGoat_controller goat w0)
        as (-> & -> & -> & -> & -> & -> & -> & _).
      repeat split; unfold barnRemoveGoat;
        destruct (barn_scan _ _ _ _); simpl; rewrite !count_log_snoc; simpl; lia.
    - repeat split; unfold w0; simpl; rewrite count_log_snoc; simpl; lia. }
  destruct Hw1 as (Hmo & Hst & Hts & Htm & Hmm & Htot & Hfl & Hbusy & Hopen).
  assert (Hidle : motorIsIdle w1 = motorIsIdle w).
  { unfold motorIsIdle. now rewrite Hst. }
  rewrite Hmm, Hidle.
  destruct (manualMode w) eqn:Hm; simpl.
  { destruct r; simpl; rewrite ?count_log_snoc; simpl;
      (split; [exact Hfl|]); (split; [exact Hmm|]);
      (split; [lia|]); repeat split; first [assumption | lia]. }
  destruct (motorIsIdle w) eqn:Hi.
  - assert (Hacc : motorState w1 = MOTOR_IDLE \/ motorState w1 = MOTOR_MANUAL_OPEN).
    { rewrite Hst. now apply motorIsIdle_true. }
    rewrite (motorOpenDoor_accept t1 t2 w1 Hacc).
    destruct r; simpl; rewrite ?count_log_snoc; simpl;
      (split; [exact Hfl|]); (split; [exact Hmm|]);
      (split; [lia|]); rewrite Hmo, Htot; repeat split; lia.
  - destruct r; simpl; rewrite ?count_log_snoc; simpl;
      (split; [exact Hfl|]); (split; [exact Hmm|]);
      (split; [lia|]); repeat split; first [assumption | lia].
Qed.

Lemma exec_allowed_transition (c : Command) w :
  allowed_transition (motorState w) (motorState (exec c w)) = true.
Proof.
  destruct c.
  - simpl. unfold motorUpdate.
    destruct w as [m st t0 tm mm tot fl r1 r2 occ pop log].
    destruct st; cbn; try reflexivity;
      destruct (bool_decide _); cbn; try reflexivity;
      try (destruct (bool_decide _); cbn); try reflexivity;
      destruct mm; reflexivity.
  - simpl. unfold motorOpenDoor.
    destruct w as [m st t0 tm mm tot fl r1 r2 occ pop log]; simpl.
    destruct st; reflexivity.
  - simpl. unfold motorManualOpen, motorOpenDoor.
    destruct w as [m st t0 tm mm tot fl r1 r2 occ pop log]; simpl.
    destruct st; reflexivity.
  - simpl. unfold motorCloseDoor.
    destruct w as [m st t0 tm mm tot fl r1 r2 occ pop log]; simpl.
    destruct st; reflexivity.
  - simpl. unfold motorManualClose, motorCloseDoor.
    destruct w as [m st t0 tm mm tot fl r1 r2 occ pop log]; simpl.
    destruct st; reflexivity.
  - simpl.
    destruct (rfidCheckReader_controller cardPresent uid readerNumber lastState t1 t2 w)
      as (_ & _ & _ & Hc).
    destruct (_ && _) eqn:Hfire.
    + destruct Hc as (_ & -> & _).
      apply andb_true_iff in Hfire as [_ Hi].
      apply motorIsIdle_true in Hi as [-> | ->]; reflexivity.
    + destruct Hc as (_ & -> & _). destruct (motorState w); reflexivity.
  - simpl. destruct (motorState w); reflexivity.
Qed.

(** X1.  [motorCloseDoor] is refused only in Idle, where it prints one line
    and changes nothing else.  In every other state (Closing and Error
    included) it aims the actuator at [POS_CLOSED], moves to Closing,
    records the move start and clears the manual flag, leaving both
    counters and the state-start time as they were; a second close right
    after an accepted one is accepted again and only renews the
    move-start time. *)
Theorem X1_requestClose_contract t1 t1' w :
  (motorState w = MOTOR_IDLE ->
     motorCloseDoor t1 w = println LogMotorAlreadyClosed w) /\
  (motorState w <> MOTOR_IDLE ->
     let w' := motorCloseDoor t1 w in
     motor w' = moveTo POS_CLOSED (motor w) /\
     motorState w' = MOTOR_CLOSING /\ motorMoveStartTime w' = t1 /\
     manualMode w' = false /\
     totalMoves w' = totalMoves w /\ failedMoves w' = failedMoves w /\
     motorStateStartTime w' = motorStateStartTime w /\
     motorState (motorCloseDoor t1' w') = MOTOR_CLOSING /\
     motorMoveStartTime (motorCloseDoor t1' w') = t1' /\
     motor (motorCloseDoor t1' w') = moveTo POS_CLOSED (moveTo POS_CLOSED (motor w))).
Proof.
  split.
  - apply motorCloseDoor_idle.
  - intros Hs. cbv zeta. rewrite (motorCloseDoor_accept t1 w Hs).
    rewrite motorCloseDoor_accept by (simpl; discriminate).
    simpl. repeat split.
Qed.

(** X2.  An update in Closing with the actuator at zero distance to go
    returns to Idle whatever the final position is; the failure counter is
    incremented (modulo 2^32) exactly when that position is not
    [POS_CLOSED]; the manual flag, the move counter and both start times are
    not touched. *)
Theorem X2_closing_arrival t1 t2 w :
  motorState w = MOTOR_CLOSING ->
  distanceToGo (run (motor w)) = 0 ->
  let w' := motorUpdate t1 t2 w in
  motorState w' = MOTOR_IDLE /\ motor w' = run (motor w) /\
  manualMode w' = manualMode w /\ totalMoves w' = totalMoves w /\
  motorStateStartTime w' = motorStateStartTime w /\
  motorMoveStartTime w' = motorMoveStartTime w /\
  (currentPosition (run (motor w)) <> POS_CLOSED ->
     failedMoves w' = wrap32 (failedMoves w + 1)) /\
  (currentPosition (run (motor w)) = POS_CLOSED ->
     failedMoves w' = failedMoves w).
Proof.
  intros Hs Hd. cbv zeta. unfold motorUpdate.
  destruct w as [m st t0 tm mm tot fl r1 r2 occ pop log]; simpl in *.
  subst st. simpl. rewrite bool_decide_eq_true_2 by exact Hd.
  case_bool_decide as Hp; simpl; repeat split; intros;
    first [reflexivity | congruence].
Qed.

(** X3.  While the actuator still has distance to go, an update in Opening
    or Closing only runs the actuator: no field of the globals other than
    [motor] changes and nothing is printed.  So the door never times out
    while moving. *)
Theorem X3_update_waits_for_arrival t1 t2 w :
  motorState w = MOTOR_OPENING \/ motorState w = MOTOR_CLOSING ->
  distanceToGo (run (motor w)) <> 0 ->
  motorUpdate t1 t2 w = set_motor (run (motor w)) w.
Proof.
  intros Hs Hd. unfold motorUpdate.
  destruct w as [m st t0 tm mm tot fl r1 r2 occ pop log]; simpl in *.
  destruct Hs as [-> | ->]; simpl;
    rewrite bool_decide_eq_false_2 by exact Hd; reflexivity.
Qed.

(** X4.  In Idle and in ManualOpen any number of updates only runs the
    actuator: the state stays what it was (a manual hold is never closed by
    the timer) and no other global changes. *)
Theorem X4_idle_and_manual_hold_are_stable (ts : list (Z * Z)) w :
  motorState w = MOTOR_IDLE \/ motorState w = MOTOR_MANUAL_OPEN ->
  update_all ts w = set_motor (Nat.iter (length ts) run (motor w)) w.
Proof.
  revert w. induction ts as [|t ts IH]; intros w Hs.
  - destruct w; reflexivity.
  - unfold update_all in *. cbn [fold_left].
    assert (Hstep : motorUpdate (fst t) (snd t) w = set_motor (run (motor w)) w).
    { unfold motorUpdate.
      destruct w as [m st t0 tm mm tot fl r1 r2 occ pop log]; simpl in *.
      destruct Hs as [-> | ->]; reflexivity. }
    rewrite Hstep, IH by exact Hs. simpl.
    rewrite <- Nat.iter_succ_r. reflexivity.
Qed.

(** X5.  Every call changes the door state along an edge of the graph
    Idle -> Opening -> OpenHolding -> Closing -> Idle, Opening -> ManualOpen
    -> Opening, plus the close edges into Closing, or leaves it alone.  In
    particular no call enters Error, Opening is entered only from Idle or
    ManualOpen, and Idle is entered only from Closing. *)
Theorem X5_transition_graph (c : Command) w :
  allowed_transition (motorState w) (motorState (exec c w)) = true /\
  (motorState (exec c w) = MOTOR_ERROR -> motorState w = MOTOR_ERROR) /\
  (motorState (exec c w) = MOTOR_OPENING ->
     motorState w = MOTOR_IDLE \/ motorState w = MOTOR_MANUAL_OPEN
     \/ motorState w = MOTOR_OPENING) /\
  (motorState (exec c w) = MOTOR_IDLE ->
     motorState w = MOTOR_CLOSING \/ motorState w = MOTOR_IDLE) /\
  (motorState (exec c w) = MOTOR_OPEN_HOLDING ->
     motorState w = MOTOR_OPENING \/ motorState w = MOTOR_OPEN_HOLDING).
Proof.
  pose proof (exec_allowed_transition c w) as Ha.
  split; [exact Ha|].
  destruct (motorState w), (motorState (exec c w));
    try discriminate Ha; repeat split; intros; try discriminate; auto.
Qed.

(** X6.  Error is unreachable: from a state other than Error (the initial
    one, for instance) no sequence of updates, open and close requests,
    reader polls and status reads ends in Error. *)
Theorem X6_error_unreachable (cs : list Command) w :
  motorState w <> MOTOR_ERROR -> motorState (exec_all cs w) <> MOTOR_ERROR.
Proof.
  revert w. induction cs as [|c cs IH]; intros w Hs; [exact Hs|].
  unfold exec_all in *. simpl. apply IH.
  pose proof (exec_allowed_transition c w) as Ha. intros He.
  rewrite He in Ha. destruct (motorState w); try discriminate Ha.
  now apply Hs.
Qed.
End ControllerMore.

Lemma X1_requestClose_contract_witness :
  motorCloseDoor 9 world0 = println LogMotorAlreadyClosed world0 /\
  motorState (motorCloseDoor 9 w_error) = MOTOR_CLOSING /\
  manualMode (motorCloseDoor 9 w_manual_open) = false.
Proof.
  split; [|split].
  - apply (X1_requestClose_contract 9 9 world0). reflexivity.
  - apply (X1_requestClose_contract 9 9 w_error). discriminate.
  - apply (X1_requestClose_contract 9 9 w_manual_open). discriminate.
Defined.

Lemma X2_closing_arrival_witness :
  motorState (motorUpdate 1 1 (set_motorState MOTOR_CLOSING
                                 (initial_world (stepper_at 1 0))))
    = MOTOR_IDLE.
Proof.
  refine (proj1 (X2_closing_arrival 1 1
                   (set_motorState MOTOR_CLOSING (initial_world (stepper_at 1 0)))
                   _ _)); reflexivity.
Defined.

Lemma X3_update_waits_for_arrival_witness :
  motorUpdate 1 1 w_closing = set_motor (run (motor w_closing)) w_closing.
Proof.
  apply (X3_update_waits_for_arrival 1 1 w_closing (or_intror eq_refl)).
  vm_compute. discriminate.
Defined.

Lemma X4_idle_and_manual_hold_are_stable_witness :
  motorState (update_all [(0, 0); (4000, 4000); (90000, 90000)] w_manual_open)
    = MOTOR_MANUAL_OPEN.
Proof.
  rewrite (X4_idle_and_manual_hold_are_stable
             [(0, 0); (4000, 4000); (90000, 90000)] w_manual_open
             (or_intror eq_refl)).
  reflexivity.
Defined.

Lemma X5_transition_graph_witness :
  motorState (exec (CmdUpdate 8000 8000) w_holding) = MOTOR_CLOSING /\
  (motorState w_holding = MOTOR_OPENING \/ motorState w_holding = MOTOR_OPEN_HOLDING).
Proof.
  split; [reflexivity|].
  apply (X5_transition_graph (CmdUpdate 7000 7000) w_holding). reflexivity.
Defined.

Lemma X6_error_unreachable_witness :
  motorState (exec_all [CmdPoll true uid_bron 1 RefR1 1 1; CmdUpdate 2 2;
                        CmdManualOpen 3 3; CmdClose 4; CmdUpdate 5 5] world0)
    <> MOTOR_ERROR.
Proof. apply X6_error_unreachable. discriminate. Defined.

(** ** The manual flag along command sequences *)

Section FlagMore.
Context {M : Type} `{AccelStepper M}.
Implicit Types w : World M.

(** [motorUpdate] prints no open-request line and no barn line. *)
Lemma motorUpdate_trace (f : LogMsg -> bool) t1 t2 w :
  (forall m, f m = true -> is_open_request m = true \/ is_barn_event m = true) ->
  count_log f (serial (motorUpdate t1 t2 w)) = count_log f (serial w).
Proof.
  intros Hf. unfold motorUpdate.
  assert (Hn : forall m, is_open_request m = false -> is_barn_event m = false ->
                 f m = false).
  { intros m H1 H2. destruct (f m) eqn:Hfm; [|reflexivity].
    destruct (Hf m Hfm) as [H3|H3]; congruence. }
  destruct w as [m st t0 tm mm tot fl r1 r2 occ pop log].
  destruct st; cbn; try reflexivity;
    repeat (destruct (bool_decide _); cbn); try destruct mm; cbn;
    rewrite ?List.filter_app, ?length_app; cbn [List.filter];
    rewrite ?Hn by reflexivity; cbn; lia.
Qed.

Lemma motorUpdate_totalMoves t1 t2 w :
  totalMoves (motorUpdate t1 t2 w) = totalMoves w.
Proof.
  unfold motorUpdate.
  destruct w as [m st t0 tm mm tot fl r1 r2 occ pop log].
  destruct st; cbn; try reflexivity;
    repeat (destruct (bool_decide _); cbn); try destruct mm; reflexivity.
Qed.

Lemma exec_manual_open_flag (c : Command) w :
  (motorState w = MOTOR_MANUAL_OPEN -> manualMode w = true) ->
  motorState (exec c w) = MOTOR_MANUAL_OPEN -> manualMode (exec c w) = true.
Proof.
  destruct c; simpl.
  - unfold motorUpdate.
    destruct w as [m st t0 tm mm tot fl r1 r2 occ pop log].
    destruct st; cbn; intros Hinv;
      repeat (destruct (bool_decide _); cbn); try destruct mm; cbn;
      intros Hs; try discriminate Hs; auto.
  - unfold motorOpenDoor.
    destruct w as [m st t0 tm mm tot fl r1 r2 occ pop log].
    destruct st; cbn; intros Hinv Hs; discriminate Hs.
  - unfold motorManualOpen. intros _ _. now rewrite motorOpenDoor_manualMode.
  - unfold motorCloseDoor.
    destruct w as [m st t0 tm mm tot fl r1 r2 occ pop log].
    destruct st; cbn; intros Hinv Hs; discriminate Hs.
  - unfold motorManualClose, motorCloseDoor.
    destruct w as [m st t0 tm mm tot fl r1 r2 occ pop log].
    destruct st; cbn; intros Hinv Hs; discriminate Hs.
  - destruct (rfidCheckReader_controller cardPresent uid readerNumber lastState t1 t2 w)
      as (_ & Hmm & _ & Hc).
    intros Hinv Hs. rewrite Hmm.
    destruct (_ && _).
    + destruct Hc as (_ & Hst & _). congruence.
    + destruct Hc as (_ & Hst & _). apply Hinv. congruence.
  - auto.
Qed.

(** X7.  Along every command sequence from the initial globals (and from
    any state where it holds), the door is in ManualOpen only with the
    manual flag set.  Hence the ManualOpen half of [motorIsIdle] never lets
    a tag scan restart the door: a scan opens it from Idle only. *)
Theorem X7_manual_open_has_flag (cs : list Command) w :
  (motorState w = MOTOR_MANUAL_OPEN -> manualMode w = true) ->
  let w' := exec_all cs w in
  (motorState w' = MOTOR_MANUAL_OPEN -> manualMode w' = true) /\
  (forall cp uid n r t1 t2,
     totalMoves (rfidCheckReader cp uid n r t1 t2 w') <> totalMoves w' ->
     motorState w' = MOTOR_IDLE /\ manualMode w' = false).
Proof.
  intros Hinv. cbv zeta.
  assert (Hinv' : motorState (exec_all cs w) = MOTOR_MANUAL_OPEN ->
                  manualMode (exec_all cs w) = true).
  { revert w Hinv. induction cs as [|c cs IH]; intros w Hinv; [exact Hinv|].
    unfold exec_all in *. simpl. apply IH. now apply exec_manual_open_flag. }
  split; [exact Hinv'|].
  intros cp uid n r t1 t2 Hne.
  destruct (rfidCheckReader_controller cp uid n r t1 t2 (exec_all cs w))
    as (_ & _ & _ & Hc).
  destruct (_ && _) eqn:Hfire.
  - apply andb_true_iff in Hfire as [Hfire Hi].
    apply andb_true_iff in Hfire as [_ Hm].
    apply negb_true_iff in Hm.
    apply motorIsIdle_true in Hi as [Hi|Hi]; [now split|].
    rewrite (Hinv' Hi) in Hm. discriminate.
  - destruct Hc as (_ & _ & _ & _ & Htot & _). contradiction.
Qed.

Lemma exec_stuck (c : Command) w :
  is_open c = false ->
  motorState w = MOTOR_IDLE -> manualMode w = true ->
  motorState (exec c w) = MOTOR_IDLE /\ manualMode (exec c w) = true /\
  totalMoves (exec c w) = totalMoves w /\
  count_log is_open_request (serial (exec c w))
    = count_log is_open_request (serial w).
Proof.
  intros Hc Hs Hm. destruct c; try discriminate Hc; simpl.
  - unfold motorUpdate.
    destruct w as [m st t0 tm mm tot fl r1 r2 occ pop log]; simpl in *.
    subst. repeat split.
  - rewrite motorCloseDoor_idle by exact Hs. simpl.
    rewrite count_log_snoc. simpl. repeat split; first [assumption | lia].
  - unfold motorManualClose. rewrite motorCloseDoor_idle by exact Hs. simpl.
    rewrite !count_log_snoc. simpl. repeat split; first [assumption | lia].
  - destruct (rfidCheckReader_controller cardPresent uid readerNumber lastState t1 t2 w)
      as (_ & Hmm & _ & Hc').
    rewrite Hm in Hc'. simpl in Hc'. rewrite andb_false_r in Hc'. simpl in Hc'.
    destruct Hc' as (_ & Hst & _ & _ & Htot & Hcnt).
    repeat split; congruence.
  - repeat split; assumption.
Qed.

(** X8.  Once the door is Idle with the manual flag still set, nothing
    but an open request gets out of it: every sequence of updates, close
    requests, reader polls and status reads leaves the door Idle and the
    flag set, makes no open request and does not move the move counter. *)
Theorem X8_flag_stuck_in_idle (cs : list Command) w :
  forallb (fun c => negb (is_open c)) cs = true ->
  motorState w = MOTOR_IDLE -> manualMode w = true ->
  let w' := exec_all cs w in
  motorState w' = MOTOR_IDLE /\ manualMode w' = true /\
  totalMoves w' = totalMoves w /\
  count_log is_open_request (serial w') = count_log is_open_request (serial w).
Proof.
  revert w. induction cs as [|c cs IH]; intros w Hall Hs Hm; cbv zeta.
  - repeat split; assumption.
  - simpl in Hall. apply andb_true_iff in Hall as [Hc Hall].
    apply negb_true_iff in Hc.
    destruct (exec_stuck c w Hc Hs Hm) as (Hs1 & Hm1 & Ht1 & Hc1).
    destruct (IH (exec c w) Hall Hs1 Hm1) as (Hs2 & Hm2 & Ht2 & Hc2).
    unfold exec_all in *. simpl.
    repeat split; congruence.
Qed.




(** X11.  A reader poll never prints the busy line and never touches the
    failure counter or the manual flag.  On a rising edge with the flag
    clear and the motor idle its open request is accepted: the actuator is
    aimed at [POS_OPEN], the state is Opening and the move counter is
    incremented; in every other case the controller is left as it was. *)
Theorem X11_scan_open_always_accepted cp uid n r t1 t2 w :
  let w' := rfidCheckReader cp uid n r t1 t2 w in
  count_log is_busy_line (serial w') = count_log is_busy_line (serial w) /\
  failedMoves w' = failedMoves w /\ manualMode w' = manualMode w /\
  (cp = true -> get_flag r w = false -> manualMode w = false ->
   motorState w = MOTOR_IDLE \/ motorState w = MOTOR_MANUAL_OPEN ->
     motorState w' = MOTOR_OPENING /\ motor w' = moveTo POS_OPEN (motor w) /\
     totalMoves w' = wrap32 (totalMoves w + 1)) /\
  (cp = false \/ get_flag r w = true \/ manualMode w = true
   \/ motorIsIdle w = false ->
     motorState w' = motorState w /\ motor w' = motor w /\
     totalMoves w' = totalMoves w).
Proof.
  cbv zeta.
  destruct (rfidCheckReader_controller cp uid n r t1 t2 w)
    as (Hfl & Hmm & Hbusy & Hc).
  split; [exact Hbusy|]. split; [exact Hfl|]. split; [exact Hmm|]. split.
  - intros -> Hf Hm Hi. apply motorIsIdle_true in Hi.
    rewrite Hf, Hm, Hi in Hc. simpl in Hc.
    destruct Hc as (Hmo & Hst & _ & _ & Htot & _). now repeat split.
  - intros Hno.
    assert (Hfire : cp && negb (get_flag r w) && negb (manualMode w)
                    && motorIsIdle w = false).
    { destruct Hno as [-> | [-> | [-> | ->]]];
        rewrite ?andb_false_r; reflexivity. }
    rewrite Hfire in Hc. destruct Hc as (Hmo & Hst & _ & _ & Htot & _).
    now repeat split.
Qed.
End FlagMore.

Lemma X7_manual_open_has_flag_witness :
  motorState (exec_all [CmdManualOpen 1 1; CmdUpdate 2 2]
                (initial_world (stepper_at 1399 0))) = MOTOR_MANUAL_OPEN /\
  manualMode (exec_all [CmdManualOpen 1 1; CmdUpdate 2 2]
                (initial_world (stepper_at 1399 0))) = true.
Proof.
  split; [reflexivity|].
  refine (proj1 (X7_manual_open_has_flag [CmdManualOpen 1 1; CmdUpdate 2 2]
                   (initial_world (stepper_at 1399 0)) _) _).
  - discriminate.
  - reflexivity.
Defined.

Lemma X8_flag_stuck_in_idle_witness :
  motorState (exec_all [CmdPoll true uid_bron 1 RefR1 1 1; CmdClose 2;
                        CmdUpdate 3 3; CmdManualClose 4; CmdStatus] w_stuck)
    = MOTOR_IDLE.
Proof.
  refine (proj1 (X8_flag_stuck_in_idle
                   [CmdPoll true uid_bron 1 RefR1 1 1; CmdClose 2;
                    CmdUpdate 3 3; CmdManualClose 4; CmdStatus] w_stuck _ _ _));
    reflexivity.
Defined.



Lemma X11_scan_open_always_accepted_witness :
  motorState (rfidCheckReader true uid_bron 1 RefR1 5 5 world0) = MOTOR_OPENING /\
  motorState (rfidCheckReader true uid_bron 1 RefR1 5 5 w_closing) = MOTOR_CLOSING.
Proof.
  destruct (X11_scan_open_always_accepted true uid_bron 1 RefR1 5 5 world0)
    as (_ & _ & _ & Hfire & _).
  destruct (X11_scan_open_always_accepted true uid_bron 1 RefR1 5 5 w_closing)
    as (_ & _ & _ & _ & Hkeep).
  split.
  - apply Hfire; [reflexivity | reflexivity | reflexivity | left; reflexivity].
  - apply Hkeep. right. right. right. reflexivity.
Defined.

(** ** More on the occupancy tracker *)

Section ListMore.
Local Open Scope nat_scope.
Implicit Types l : list string.

Lemma removeIfPresent_snoc name l :
  name ∉ l -> removeIfPresent name (l ++ [name]) = l.
Proof.
  induction l as [|x l IH]; simpl.
  - intros _. now rewrite bool_decide_eq_true_2.
  - rewrite not_elem_of_cons. intros [Hne Hl].
    rewrite bool_decide_eq_false_2 by congruence. now rewrite IH.
Qed.

Lemma removeIfPresent_other name x l :
  x <> name -> x ∈ removeIfPresent name l <-> x ∈ l.
Proof.
  intros Hne. induction l as [|y l IH]; simpl; [reflexivity|].
  case_bool_decide as Hy.
  - subst y. rewrite elem_of_cons. split; [auto|]. intros [?|?]; congruence.
  - rewrite !elem_of_cons, IH. reflexivity.
Qed.

Lemma removeIfPresent_gone name l :
  NoDup l -> name ∉ removeIfPresent name l.
Proof.
  intros Hnd. rewrite removeIfPresent_filter by exact Hnd.
  rewrite list_elem_of_filter. tauto.
Qed.

Lemma addIfAbsent_elem name x l :
  x ∈ addIfAbsent name l <->
  x ∈ l \/ (x = name /\ length l < MAX_GOATS_IN_BARN).
Proof.
  unfold addIfAbsent. case_bool_decide as Hin.
  - split; [auto|]. intros [?|[-> _]]; assumption.
  - destruct (Nat.ltb_spec (length l) MAX_GOATS_IN_BARN) as [Hlt|Hge].
    + rewrite elem_of_app, list_elem_of_singleton. tauto.
    + split; [auto|]. intros [?|[_ ?]]; [assumption | lia].
Qed.
End ListMore.

Section BarnMore.
Context {M : Type}.
Implicit Types w : World M.
Local Open Scope nat_scope.

(** X12.  On a well-formed barn the array code computes the list
    operations: [barnAddGoat] leaves the list alone if the name is in it or
    the list has [MAX_GOATS_IN_BARN] entries and appends the name at the
    end otherwise; [barnRemoveGoat] deletes the first entry equal to the
    name and keeps the order of the rest; both keep the array size and the
    counter within it, and so does every sequence of them. *)
Theorem X12_barn_refines_lists (os : list BarnOp) (name : string) w :
  barn_wf w ->
  occupants (barnAddGoat name w)
    = (if bool_decide (name ∈ occupants w) then occupants w
       else if barnPopulation w <? MAX_GOATS_IN_BARN
            then occupants w ++ [name] else occupants w) /\
  occupants (barnRemoveGoat name w) = removeIfPresent name (occupants w) /\
  (NoDup (occupants w) ->
     occupants (barnRemoveGoat name w)
       = filter (fun x => x <> name) (occupants w)) /\
  barn_wf (run_barn os w) /\
  occupants (run_barn os w)
    = fold_left (fun l o => spec_barn_op o l) os (occupants w).
Proof.
  intros Hwf.
  destruct (barnAddGoat_refines name w Hwf) as [_ Ha].
  destruct (barnRemoveGoat_refines name w Hwf) as [_ Hr].
  destruct (run_barn_refines os w Hwf) as [Hwf' Hrun].
  split; [|split; [exact Hr | split; [|split; [exact Hwf' | exact Hrun]]]].
  - rewrite Ha. unfold addIfAbsent. now rewrite (occupants_length w Hwf).
  - intros Hnd. rewrite Hr. now apply removeIfPresent_filter.
Qed.

(** X13.  Removing a name that is not inside, and any removal from the
    empty barn, prints "not found" and changes nothing else: the counter
    never goes below zero. *)
Theorem X13_remove_absent_is_noop (name : string) w :
  (name ∉ occupants w ->
     barnRemoveGoat name w = println (LogBarnNotFound name) w) /\
  (barnPopulation w = 0 ->
     barnRemoveGoat name w = println (LogBarnNotFound name) w).
Proof.
  assert (Habs : name ∉ occupants w ->
                 barnRemoveGoat name w = println (LogBarnNotFound name) w).
  { intros Hno. unfold barnRemoveGoat.
    now rewrite (proj2 (barn_scan_None_take name _ _) Hno). }
  split; [exact Habs|].
  intros H0. apply Habs. unfold occupants. rewrite H0. apply not_elem_of_nil.
Qed.

(** X14.  Entering and leaving cancel: on a well-formed barn with room,
    adding a name that is not inside and removing it again gives back the
    occupancy list and the counter. *)
Theorem X14_add_then_remove_restores (name : string) w :
  barn_wf w -> name ∉ occupants w -> barnPopulation w < MAX_GOATS_IN_BARN ->
  let w' := barnRemoveGoat name (barnAddGoat name w) in
  occupants (barnAddGoat name w) = occupants w ++ [name] /\
  occupants w' = occupants w /\ barnPopulation w' = barnPopulation w.
Proof.
  intros Hwf Hno Hlt. cbv zeta.
  destruct (barnAddGoat_refines name w Hwf) as [Hwf1 Ha].
  destruct (barnRemoveGoat_refines name _ Hwf1) as [Hwf2 Hr].
  assert (Hadd : occupants (barnAddGoat name w) = occupants w ++ [name]).
  { rewrite Ha. unfold addIfAbsent.
    rewrite bool_decide_eq_false_2 by exact Hno.
    rewrite (occupants_length w Hwf).
    now destruct (Nat.ltb_spec (barnPopulation w) MAX_GOATS_IN_BARN); [|lia]. }
  assert (Hocc : occupants (barnRemoveGoat name (barnAddGoat name w)) = occupants w).
  { rewrite Hr, Hadd. now apply removeIfPresent_snoc. }
  split; [exact Hadd|]. split; [exact Hocc|].
  rewrite <- (occupants_length _ Hwf2), <- (occupants_length w Hwf).
  now rewrite Hocc.
Qed.

(** X15.  Membership after the two calls, on a well-formed barn: after
    [barnAddGoat name] the name is inside iff it was inside or there was
    room; after [barnRemoveGoat name] on a list of distinct names it is not
    inside; and neither call changes whether any other name is inside. *)
Theorem X15_membership (name x : string) w :
  barn_wf w ->
  (name ∈ occupants (barnAddGoat name w) <->
     name ∈ occupants w \/ barnPopulation w < MAX_GOATS_IN_BARN) /\
  (NoDup (occupants w) -> name ∉ occupants (barnRemoveGoat name w)) /\
  (x <> name ->
     (x ∈ occupants (barnAddGoat name w) <-> x ∈ occupants w) /\
     (x ∈ occupants (barnRemoveGoat name w) <-> x ∈ occupants w)).
Proof.
  intros Hwf.
  destruct (barnAddGoat_refines name w Hwf) as [_ Ha].
  destruct (barnRemoveGoat_refines name w Hwf) as [_ Hr].
  rewrite Ha, Hr. split; [|split].
  - rewrite addIfAbsent_elem, (occupants_length w Hwf). tauto.
  - apply removeIfPresent_gone.
  - intros Hne. split.
    + rewrite addIfAbsent_elem. tauto.
    + now apply removeIfPresent_other.
Qed.
End BarnMore.

Lemma X12_barn_refines_lists_witness :
  occupants (barnAddGoat "BigO" w_two) = ["TFrance"; "Bron"; "BigO"]%string /\
  occupants (barnRemoveGoat "TFrance" w_two) = ["Bron"]%string.
Proof.
  assert (Hwf : barn_wf w_two) by (split; vm_compute; [reflexivity | lia]).
  destruct (X12_barn_refines_lists [] "BigO" w_two Hwf) as (Ha & _).
  destruct (X12_barn_refines_lists [] "TFrance" w_two Hwf) as (_ & Hr & _).
  split; [rewrite Ha | rewrite Hr]; reflexivity.
Defined.

Lemma X13_remove_absent_is_noop_witness :
  barnRemoveGoat "Bron" world0 = println (LogBarnNotFound "Bron") world0.
Proof. apply (X13_remove_absent_is_noop "Bron" world0). reflexivity. Defined.

Lemma X14_add_then_remove_restores_witness :
  occupants (barnRemoveGoat "BigO" (barnAddGoat "BigO" w_two)) = occupants w_two.
Proof.
  refine (proj1 (proj2 (X14_add_then_remove_restores "BigO" w_two _ _ _))).
  - split; vm_compute; [reflexivity | lia].
  - apply (bool_decide_eq_false_1 _). vm_compute. reflexivity.
  - vm_compute. lia.
Defined.

Lemma X15_membership_witness :
  ("Bron"%string ∉ occupants (barnRemoveGoat "Bron" w_two)) /\
  ("TFrance"%string ∈ occupants (barnRemoveGoat "Bron" w_two)).
Proof.
  assert (Hwf : barn_wf w_two) by (split; vm_compute; [reflexivity | lia]).
  destruct (X15_membership "Bron" "TFrance" w_two Hwf) as (_ & Hgone & Hother).
  split.
  - apply Hgone. apply (bool_decide_eq_true_1 _). vm_compute. reflexivity.
  - apply Hother; [discriminate|].
    apply (list_elem_of_lookup_2 _ 0%nat). reflexivity.
Defined.

(** ** Scans and the occupancy list *)

Section DispatcherMore.
Context {M : Type} `{AccelStepper M}.
Implicit Types w : World M.
Local Open Scope nat_scope.

Lemma door_step_barn (r : FlagRef) (b c : bool) (m : LogMsg) t1 t2 w :
  let w' := set_flag r b (if c then motorOpenDoor t1 t2 w else println m w) in
  barnOccupants w' = barnOccupants w /\ barnPopulation w' = barnPopulation w.
Proof.
  cbv zeta. unfold motorOpenDoor.
  destruct r, c; try destruct (_ && _); split; reflexivity.
Qed.

(** What a poll does to the occupancy list. *)
Lemma rfidCheckReader_barn cp uid n r t1 t2 w :
  barn_wf w ->
  let w' := rfidCheckReader cp uid n r t1 t2 w in
  barn_wf w' /\
  occupants w' =
    if cp && negb (get_flag r w) then
      if bool_decide (n = 1%Z) then addIfAbsent (goat_of_uid uid) (occupants w)
      else if bool_decide (n = 2%Z)
           then removeIfPresent (goat_of_uid uid) (occupants w)
           else occupants w
    else occupants w.
Proof.
  intros Hwf. cbv zeta. unfold rfidCheckReader.
  destruct (cp && negb (get_flag r w)).
  - fold (goat_of_uid uid).
    set (w0 := println (LogRfidDetected n (goat_of_uid uid) uid) w).
    set (w1 := if bool_decide (n = 1%Z) then _ else _).
    assert (Hw1 : barn_wf w1 /\
                  occupants w1 =
                    if bool_decide (n = 1%Z)
                    then addIfAbsent (goat_of_uid uid) (occupants w)
                    else if bool_decide (n = 2%Z)
                         then removeIfPresent (goat_of_uid uid) (occupants w)
                         else occupants w).
    { unfold w1. repeat case_bool_decide.
      - apply (barnAddGoat_refines (goat_of_uid uid) w0 Hwf).
      - apply (barnRemoveGoat_refines (goat_of_uid uid) w0 Hwf).
      - split; [exact Hwf | reflexivity]. }
    destruct (door_step_barn r true (negb (manualMode w1) && motorIsIdle w1)
                LogRfidIgnored t1 t2 w1) as [Ho Hp].
    unfold barn_wf, occupants in *. rewrite Ho, Hp. exact Hw1.
  - destruct (negb cp); [|now split].
    destruct r; now split.
Qed.

(** The channel flag after a poll is the presence reading; the flag of the
    other channel is not touched. *)
Lemma rfidCheckReader_flags cp uid n r t1 t2 w :
  let w' := rfidCheckReader cp uid n r t1 t2 w in
  get_flag r w' = cp /\
  (forall r', r' <> r -> get_flag r' w' = get_flag r' w).
Proof.
  cbv zeta. unfold rfidCheckReader.
  destruct cp; simpl.
  - destruct (get_flag r w) eqn:Hf; simpl; [now split|].
    set (w0 := println _ w).
    set (w1 := if bool_decide (n = 1%Z) then _ else _).
    assert (Hw1 : lastCardStateR1 w1 = lastCardStateR1 w /\
                  lastCardStateR2 w1 = lastCardStateR2 w).
    { unfold w1. repeat case_bool_decide.
      - destruct (barnAddGoat_controller (match rfidIdentifyGoat uid with
                                          | Some n0 => n0 | None => "UNKNOWN"%string end) w0)
          as (_ & _ & _ & _ & _ & _ & _ & Ha & Hb). now split.
      - destruct (barnRemoveGoat_controller (match rfidIdentifyGoat uid with
                                             | Some n0 => n0 | None => "UNKNOWN"%string end) w0)
          as (_ & _ & _ & _ & _ & _ & _ & Ha & Hb). now split.
      - now split. }
    destruct Hw1 as [Hw1a Hw1b].
    assert (Hd : forall w2, w2 = (if negb (manualMode w1) && motorIsIdle w1
                                  then motorOpenDoor t1 t2 w1
                                  else println LogRfidIgnored w1) ->
                 lastCardStateR1 w2 = lastCardStateR1 w /\
                 lastCardStateR2 w2 = lastCardStateR2 w).
    { intros w2 ->. destruct (_ && _).
      - destruct (motorOpenDoor_frame t1 t2 w1) as (-> & -> & _). now split.
      - now split. }
    destruct (Hd _ eq_refl) as [H1' H2'].
    split; [apply get_set_flag|].
    intros r' Hne. destruct r, r'; try congruence; simpl; assumption.
  - split; [apply get_set_flag|].
    intros r' Hne. destruct r, r'; try congruence; reflexivity.
Qed.

(** X16.  A full barn does not hold the door shut: when a goat that is not
    inside is scanned on the entry reader at capacity, the occupancy list
    stays as it is (the entry is dropped) and the door opens all the same. *)
Theorem X16_full_barn_scan_still_opens uid (r : FlagRef) t1 t2 w :
  barn_wf w -> barnPopulation w = MAX_GOATS_IN_BARN ->
  goat_of_uid uid ∉ occupants w ->
  get_flag r w = false -> manualMode w = false -> motorState w = MOTOR_IDLE ->
  let w' := rfidCheckReader true uid 1 r t1 t2 w in
  occupants w' = occupants w /\
  motorState w' = MOTOR_OPENING /\ motor w' = moveTo POS_OPEN (motor w) /\
  totalMoves w' = wrap32 (totalMoves w + 1).
Proof.
  intros Hwf Hfull Hno Hf Hm Hs. cbv zeta.
  destruct (rfidCheckReader_barn true uid 1 r t1 t2 w Hwf) as [_ Hocc].
  destruct (rfidCheckReader_controller true uid 1 r t1 t2 w) as (_ & _ & _ & Hc).
  rewrite Hf in Hocc, Hc. rewrite Hm in Hc.
  unfold motorIsIdle in Hc. rewrite Hs in Hc. simpl in Hocc, Hc.
  destruct Hc as (Hmo & Hst & _ & _ & Htot & _).
  split; [|now repeat split].
  rewrite Hocc. unfold addIfAbsent.
  rewrite bool_decide_eq_false_2 by exact Hno.
  rewrite (occupants_length w Hwf), Hfull. reflexivity.
Qed.

Lemma addIfAbsent_idem name (l : list string) :
  addIfAbsent name (addIfAbsent name l) = addIfAbsent name l.
Proof.
  destruct (decide (name ∈ addIfAbsent name l)) as [Hin|Hno].
  - unfold addIfAbsent at 1. now rewrite bool_decide_eq_true_2.
  - assert (Heq : addIfAbsent name l = l).
    { unfold addIfAbsent in *. case_bool_decide; [reflexivity|].
      destruct (_ <? _); [|reflexivity].
      exfalso. apply Hno. rewrite elem_of_app, list_elem_of_singleton. now right. }
    now rewrite !Heq.
Qed.

(** X17.  All cards the registry does not know share the one name
    "UNKNOWN": a second unknown card entering after the first adds nothing
    to the occupancy list, and when one unknown card is then scanned on the
    exit reader no "UNKNOWN" is left inside. *)
Theorem X17_unknown_cards_share_one_entry u1 u2 a1 a2 b1 b2 c1 c2 d1 d2 w :
  rfidIdentifyGoat u1 = None -> rfidIdentifyGoat u2 = None ->
  barn_wf w -> NoDup (occupants w) ->
  get_flag RefR1 w = false -> get_flag RefR2 w = false ->
  let w1 := rfidCheckReader true u1 1 RefR1 a1 a2 w in
  let w2 := rfidCheckReader false u1 1 RefR1 b1 b2 w1 in
  let w3 := rfidCheckReader true u2 1 RefR1 c1 c2 w2 in
  let w4 := rfidCheckReader true u2 2 RefR2 d1 d2 w3 in
  occupants w1 = addIfAbsent "UNKNOWN" (occupants w) /\
  occupants w3 = occupants w1 /\
  "UNKNOWN"%string ∉ occupants w4.
Proof.
  intros Hu1 Hu2 Hwf Hnd Hf1 Hf2. cbv zeta.
  assert (Hg1 : goat_of_uid u1 = "UNKNOWN"%string)
    by (unfold goat_of_uid; now rewrite Hu1).
  assert (Hg2 : goat_of_uid u2 = "UNKNOWN"%string)
    by (unfold goat_of_uid; now rewrite Hu2).
  set (w1 := rfidCheckReader true u1 1 RefR1 a1 a2 w).
  set (w2 := rfidCheckReader false u1 1 RefR1 b1 b2 w1).
  set (w3 := rfidCheckReader true u2 1 RefR1 c1 c2 w2).
  destruct (rfidCheckReader_barn true u1 1 RefR1 a1 a2 w Hwf) as [Hwf1 Ho1].
  destruct (rfidCheckReader_barn false u1 1 RefR1 b1 b2 w1 Hwf1) as [Hwf2 Ho2].
  destruct (rfidCheckReader_barn true u2 1 RefR1 c1 c2 w2 Hwf2) as [Hwf3 Ho3].
  destruct (rfidCheckReader_barn true u2 2 RefR2 d1 d2 w3 Hwf3) as [_ Ho4].
  destruct (rfidCheckReader_flags true u1 1 RefR1 a1 a2 w) as [_ Hk1].
  destruct (rfidCheckReader_flags false u1 1 RefR1 b1 b2 w1) as [Hc2 Hk2].
  destruct (rfidCheckReader_flags true u2 1 RefR1 c1 c2 w2) as [_ Hk3].
  fold w1 in Ho1, Hk1. fold w2 in Ho2, Hc2, Hk2. fold w3 in Ho3, Hk3.
  assert (Hr2 : get_flag RefR2 w3 = false).
  { rewrite Hk3, Hk2, Hk1 by discriminate. exact Hf2. }
  rewrite Hf1, Hg1 in Ho1. simpl in Ho1.
  simpl in Ho2.
  rewrite Hc2, Hg2, Ho2, Ho1 in Ho3. simpl in Ho3.
  rewrite addIfAbsent_idem in Ho3.
  rewrite Hr2, Hg2, Ho3 in Ho4. simpl in Ho4.
  split; [exact Ho1|]. split; [now rewrite Ho3, Ho1|].
  rewrite Ho4. apply removeIfPresent_gone. now apply addIfAbsent_NoDup.
Qed.

(** X18.  A card scanned on the entry reader and then on the exit reader
    leaves the occupancy list as it was, when its name was not inside and
    the barn had room: the entry appends the name, the exit removes it. *)
Theorem X18_enter_then_exit uid a1 a2 b1 b2 w :
  barn_wf w -> goat_of_uid uid ∉ occupants w ->
  barnPopulation w < MAX_GOATS_IN_BARN ->
  get_flag RefR1 w = false -> get_flag RefR2 w = false ->
  let w1 := rfidCheckReader true uid 1 RefR1 a1 a2 w in
  let w2 := rfidCheckReader true uid 2 RefR2 b1 b2 w1 in
  occupants w1 = occupants w ++ [goat_of_uid uid] /\
  occupants w2 = occupants w.
Proof.
  intros Hwf Hno Hlt Hf1 Hf2. cbv zeta.
  set (w1 := rfidCheckReader true uid 1 RefR1 a1 a2 w).
  destruct (rfidCheckReader_barn true uid 1 RefR1 a1 a2 w Hwf) as [Hwf1 Ho1].
  destruct (rfidCheckReader_barn true uid 2 RefR2 b1 b2 w1 Hwf1) as [_ Ho2].
  destruct (rfidCheckReader_flags true uid 1 RefR1 a1 a2 w) as [_ Hk1].
  fold w1 in Ho1, Hk1.
  rewrite Hf1 in Ho1. simpl in Ho1.
  rewrite (Hk1 RefR2), Hf2 in Ho2 by discriminate. simpl in Ho2.
  assert (Hadd : occupants w1 = occupants w ++ [goat_of_uid uid]).
  { rewrite Ho1. unfold addIfAbsent.
    rewrite bool_decide_eq_false_2 by exact Hno.
    rewrite (occupants_length w Hwf).
    now destruct (Nat.ltb_spec (barnPopulation w) MAX_GOATS_IN_BARN); [|lia]. }
  split; [exact Hadd|].
  rewrite Ho2, Hadd. now apply removeIfPresent_snoc.
Qed.
End DispatcherMore.

Lemma X16_full_barn_scan_still_opens_witness :
  occupants (rfidCheckReader true uid_bron 1 RefR1 5 5 w_full) = occupants w_full /\
  motorState (rfidCheckReader true uid_bron 1 RefR1 5 5 w_full) = MOTOR_OPENING.
Proof.
  assert (Hwf : barn_wf w_full) by (split; vm_compute; [reflexivity | lia]).
  assert (Hno : goat_of_uid uid_bron ∉ occupants w_full)
    by (apply (bool_decide_eq_false_1 _); vm_compute; reflexivity).
  destruct (X16_full_barn_scan_still_opens uid_bron RefR1 5 5 w_full
              Hwf eq_refl Hno eq_refl eq_refl eq_refl) as (Ho & Hs & _).
  split; assumption.
Defined.

Lemma X17_unknown_cards_share_one_entry_witness :
  occupants
    (rfidCheckReader true uid_stray2 1 RefR1 3 3
       (rfidCheckReader false uid_stray1 1 RefR1 2 2
          (rfidCheckReader true uid_stray1 1 RefR1 1 1 world0)))
  = ["UNKNOWN"]%string.
Proof.
  assert (Hwf : barn_wf world0) by (split; vm_compute; [reflexivity | lia]).
  assert (Hnd : NoDup (occupants world0)) by apply NoDup_nil_2.
  destruct (X17_unknown_cards_share_one_entry uid_stray1 uid_stray2
              1 1 2 2 3 3 4 4 world0 eq_refl eq_refl Hwf Hnd eq_refl eq_refl)
    as (Ho1 & Ho3 & _).
  rewrite Ho3, Ho1. reflexivity.
Defined.

Lemma X18_enter_then_exit_witness :
  occupants (rfidCheckReader true uid_bron 2 RefR2 9 9
               (rfidCheckReader true uid_bron 1 RefR1 5 5 world0)) = [].
Proof.
  assert (Hwf : barn_wf world0) by (split; vm_compute; [reflexivity | lia]).
  assert (Hno : goat_of_uid uid_bron ∉ occupants world0) by apply not_elem_of_nil.
  assert (Hlt : (barnPopulation world0 < MAX_GOATS_IN_BARN)%nat)
    by (vm_compute; lia).
  destruct (X18_enter_then_exit uid_bron 5 5 9 9 world0 Hwf Hno Hlt eq_refl eq_refl)
    as (_ & Ho).
  rewrite Ho. reflexivity.
Defined.

(** ** The tag registry *)

Lemma uid_matches_prefix (g : GoatRecord_t) (uid : Uid) :
  length (goat_uid g) = 4%nat ->
  uid_matches g uid = true <-> take 4 (uidByte uid) = goat_uid g.
Proof.
  intros Hlen. unfold uid_matches. cbn [seq forallb].
  rewrite !andb_true_iff, !bool_decide_eq_true.
  destruct (goat_uid g) as [|a0 [|a1 [|a2 [|a3 [|a4 ga]]]]]; try discriminate Hlen.
  destruct (uidByte uid) as [|b0 [|b1 [|b2 [|b3 bs]]]]; cbn;
    rewrite ?take_0;
    split; intros Hm; try (decompose [and] Hm; discriminate);
    try discriminate Hm.
  - decompose [and] Hm. congruence.
  - injection Hm as -> -> -> ->. repeat split.
Qed.

Lemma find_uid_matches (gs : list GoatRecord_t) (uid : Uid) (g : GoatRecord_t) :
  Forall (fun g => length (goat_uid g) = 4%nat) gs ->
  NoDup (map goat_uid gs) ->
  List.find (fun g => uid_matches g uid) gs = Some g <->
  g ∈ gs /\ take 4 (uidByte uid) = goat_uid g.
Proof.
  induction gs as [|g1 gs IH]; intros Hlen Hnd.
  - simpl. split; [discriminate|]. intros [Hin _]. now apply elem_of_nil in Hin.
  - apply Forall_cons in Hlen as [Hl1 Hlen].
    cbn [map] in Hnd. apply NoDup_cons in Hnd as [Hfresh Hnd].
    cbn [List.find].
    destruct (uid_matches g1 uid) eqn:Hm.
    + apply (uid_matches_prefix g1 uid Hl1) in Hm. split.
      * intros [= <-]. split; [apply list_elem_of_here | exact Hm].
      * intros [Hin Hp]. apply elem_of_cons in Hin as [-> | Hin]; [reflexivity|].
        exfalso. apply Hfresh. rewrite <- Hm, Hp.
        apply list_elem_of_fmap. now exists g.
    + rewrite (IH Hlen Hnd). rewrite elem_of_cons. split.
      * intros [Hin Hp]. split; [now right | exact Hp].
      * intros [[-> | Hin] Hp]; [|now split].
        apply (uid_matches_prefix g1 uid Hl1) in Hp. congruence.
Qed.

Lemma knownGoats_wf :
  Forall (fun g => length (goat_uid g) = 4%nat) knownGoats /\
  NoDup (map goat_uid knownGoats).
Proof.
  split.
  - repeat constructor.
  - apply (bool_decide_eq_true_1 _). vm_compute. reflexivity.
Qed.

(** X19.  [rfidIdentifyGoat] answers for a uid of at least four bytes
    whose first four bytes are those of a registry entry, with that
    entry's name, whatever bytes follow; it has no answer for a shorter
    uid or for any other first four bytes.  The name a scan is booked
    under is therefore one of the three registry names or "UNKNOWN". *)
Theorem X19_identify (uid : Uid) :
  ((uid_size uid < 4)%nat -> rfidIdentifyGoat uid = None) /\
  (forall name, rfidIdentifyGoat uid = Some name <->
     (4 <= uid_size uid)%nat /\
     exists g, g ∈ knownGoats /\ goat_name g = name /\
               take 4 (uidByte uid) = goat_uid g) /\
  goat_of_uid uid ∈ ["Bron"; "TFrance"; "BigO"; "UNKNOWN"]%string.
Proof.
  destruct knownGoats_wf as [Hlen Hnd].
  assert (Hshort : (uid_size uid < 4)%nat -> rfidIdentifyGoat uid = None).
  { intros Hlt. unfold rfidIdentifyGoat.
    now destruct (Nat.ltb_spec (uid_size uid) 4); [|lia]. }
  assert (Hiff : forall name, rfidIdentifyGoat uid = Some name <->
            (4 <= uid_size uid)%nat /\
            exists g, g ∈ knownGoats /\ goat_name g = name /\
                      take 4 (uidByte uid) = goat_uid g).
  { intros name. unfold rfidIdentifyGoat.
    destruct (Nat.ltb_spec (uid_size uid) 4) as [Hlt|Hge].
    { split; [discriminate | intros [Hge _]; lia]. }
    destruct (List.find _ knownGoats) as [g|] eqn:Hfind; cbn.
    - apply (find_uid_matches knownGoats uid g Hlen Hnd) in Hfind as [Hin Hp].
      split.
      + intros Heq. split; [exact Hge|]. exists g.
        split; [exact Hin|]. split; [congruence | exact Hp].
      + intros (_ & g' & Hin' & <- & Hp').
        assert (Hf : List.find (fun g => uid_matches g uid) knownGoats = Some g').
        { apply find_uid_matches; [exact Hlen | exact Hnd | now split]. }
        assert (Hf0 : List.find (fun g => uid_matches g uid) knownGoats = Some g).
        { apply find_uid_matches; [exact Hlen | exact Hnd | now split]. }
        congruence.
    - split; [discriminate|].
      intros (_ & g' & Hin' & _ & Hp'). exfalso.
      assert (Hf : List.find (fun g => uid_matches g uid) knownGoats = Some g').
      { apply find_uid_matches; [exact Hlen | exact Hnd | now split]. }
      congruence. }
  split; [exact Hshort|]. split; [exact Hiff|].
  unfold goat_of_uid. destruct (rfidIdentifyGoat uid) as [name|] eqn:Hid.
  - destruct (proj1 (Hiff name) eq_refl) as (_ & g & Hg & <- & _).
    apply list_elem_of_In in Hg. cbn in Hg.
    destruct Hg as [<- | [<- | [<- | []]]]; cbn;
      repeat first [apply list_elem_of_here | apply list_elem_of_further].
  - repeat first [apply list_elem_of_here | apply list_elem_of_further].
Qed.

Lemma X19_identify_witness :
  rfidIdentifyGoat uid_tfrance = Some "TFrance"%string /\
  rfidIdentifyGoat {| uid_size := 3; uidByte := uidByte uid_bron |} = None.
Proof.
  split.
  - apply (X19_identify uid_tfrance). split; [vm_compute; lia|].
    exists {| goat_name := "TFrance"; goat_uid := [0xB9; 0x72; 0xA9; 0x11] |}.
    split; [apply list_elem_of_further, list_elem_of_here|].
    split; reflexivity.
  - apply (X19_identify {| uid_size := 3; uidByte := uidByte uid_bron |}).
    vm_compute. lia.
Defined.

(** ** The rendering of a uid *)

Lemma toUpperCase_app (a b : string) :
  toUpperCase (a +:+ b) = (toUpperCase a +:+ toUpperCase b)%string.
Proof.
  induction a as [|c a IH]; [reflexivity|].
  change (String (toupper c) (toUpperCase (a +:+ b))
          = String (toupper c) (toUpperCase a +:+ toUpperCase b)%string).
  now rewrite IH.
Qed.

Lemma hex_value_digit (d : Z) :
  0 <= d < 16 -> hex_value (toupper (hex_digit d)) = d.
Proof.
  intros Hd.
  assert (Hc : d = 0 \/ d = 1 \/ d = 2 \/ d = 3 \/ d = 4 \/ d = 5 \/ d = 6 \/ d = 7
               \/ d = 8 \/ d = 9 \/ d = 10 \/ d = 11 \/ d = 12 \/ d = 13
               \/ d = 14 \/ d = 15) by lia.
  repeat (destruct Hc as [-> | Hc]; [reflexivity|]). subst d. reflexivity.
Qed.

Lemma hex2_inj (a b : Z) : is_byte a -> is_byte b -> hex2 a = hex2 b -> a = b.
Proof.
  unfold is_byte, hex2. intros Ha Hb [= H1 H2].
  apply (f_equal hex_value) in H1, H2.
  rewrite !hex_value_digit in H1, H2
    by (first [apply Z.mod_pos_bound; lia
              | split; [apply Z.div_pos; lia | apply Z.div_lt_upper_bound; lia]]).
  rewrite (Z.div_mod a 16), (Z.div_mod b 16) by lia. congruence.
Qed.

Lemma toUpperCase_byte (r : string) (b : Z) :
  is_byte b ->
  toUpperCase ((if b <? 16 then (r +:+ "0")%string else r) +:+ String_of_byte_HEX b)
    = (toUpperCase r +:+ hex2 b)%string.
Proof.
  intros Hb. unfold is_byte in Hb. unfold String_of_byte_HEX, hex2.
  destruct (Z.ltb_spec b 16) as [Hlt|Hge].
  - rewrite !toUpperCase_app, append_assoc.
    rewrite Z.div_small, Z.mod_small by lia. reflexivity.
  - rewrite toUpperCase_app. reflexivity.
Qed.

Lemma uid_loop_concat (bytes : list Z) (size i n : nat) (result : string) :
  (i + n = size)%nat -> (size <= length bytes)%nat ->
  Forall is_byte (take size bytes) ->
  toUpperCase (uid_loop bytes size i n result)
    = (toUpperCase result
       +:+ String.concat ":" (map hex2 (drop i (take size bytes))))%string.
Proof.
  revert i result. induction n as [|n IH]; intros i result Hi Hsize Hall.
  - simpl. rewrite drop_ge by (rewrite length_take; lia).
    simpl. now rewrite append_nil_r.
  - destruct (lookup_lt_is_Some_2 bytes i) as [x Hx]; [lia|].
    assert (Hxt : take size bytes !! i = Some x)
      by (rewrite lookup_take_lt by lia; exact Hx).
    assert (Hbx : is_byte x) by (eapply Forall_lookup_1; eassumption).
    rewrite (drop_S _ x i Hxt).
    cbn [uid_loop]. rewrite Hx. cbn [default from_option id].
    rewrite IH by (first [lia | assumption]).
    destruct (Nat.ltb_spec i (size - 1)) as [Hlt|Hge].
    + destruct (drop (S i) (take size bytes)) as [|z zs] eqn:Hrest.
      { apply (f_equal length) in Hrest.
        rewrite length_drop, length_take in Hrest. simpl in Hrest. lia. }
      change (String.concat ":" (map hex2 (x :: z :: zs)))
        with (hex2 x +:+ ":" +:+ String.concat ":" (map hex2 (z :: zs)))%string.
      generalize (String.concat ":" (map hex2 (z :: zs))). intros rest.
      rewrite toUpperCase_app, toUpperCase_byte by exact Hbx.
      change (toUpperCase ":") with ":"%string.
      now rewrite !append_assoc.
    + rewrite drop_ge by (rewrite length_take; lia).
      cbn [map String.concat]. rewrite append_nil_r.
      now apply toUpperCase_byte.
Qed.

Lemma string_length_app (a b : string) :
  String.length (a +:+ b) = (String.length a + String.length b)%nat.
Proof.
  induction a as [|c a IH]; [reflexivity|].
  change (S (String.length (a +:+ b)) = S (String.length a + String.length b)).
  now rewrite IH.
Qed.

Lemma concat_hex2_length (l : list Z) :
  String.length (String.concat ":" (map hex2 l)) = (3 * length l - 1)%nat.
Proof.
  induction l as [|a l IH]; [reflexivity|].
  destruct l as [|b l]; [reflexivity|].
  change (String.concat ":" (map hex2 (a :: b :: l)))
    with (hex2 a +:+ ":" +:+ String.concat ":" (map hex2 (b :: l)))%string.
  rewrite !string_length_app, IH.
  change (String.length (hex2 a)) with 2%nat.
  change (String.length ":") with 1%nat.
  simpl length. lia.
Qed.

Lemma concat_hex2_inj (l1 l2 : list Z) :
  Forall is_byte l1 -> Forall is_byte l2 ->
  String.concat ":" (map hex2 l1) = String.concat ":" (map hex2 l2) ->
  l1 = l2.
Proof.
  revert l2. induction l1 as [|a l1 IH]; intros l2 H1 H2 Heq.
  - destruct l2 as [|b [|b' l2]]; [reflexivity | discriminate Heq | discriminate Heq].
  - apply Forall_cons in H1 as [Ha H1].
    destruct l2 as [|b l2]; [destruct l1; discriminate Heq|].
    apply Forall_cons in H2 as [Hb H2].
    destruct l1 as [|a' l1], l2 as [|b' l2].
    + f_equal. now apply hex2_inj.
    + discriminate Heq.
    + discriminate Heq.
    + change (hex2 a +:+ ":" +:+ String.concat ":" (map hex2 (a' :: l1))
              = hex2 b +:+ ":" +:+ String.concat ":" (map hex2 (b' :: l2)))%string
        in Heq.
      unfold hex2 at 1 3 in Heq. injection Heq as Hc1 Hc2 Hrest.
      f_equal.
      * apply hex2_inj; [exact Ha | exact Hb |]. unfold hex2. congruence.
      * now apply IH.
Qed.

(** X20.  For a uid whose [size] bytes lie in the array and are bytes,
    [rfidUidToString] is the bytes in two upper-case hexadecimal digits each,
    joined by colons: [3 * size - 1] characters (none for size 0), and two
    uids are rendered alike only if their bytes are the same. *)
Theorem X20_uid_rendering (uid uid' : Uid) :
  (uid_size uid <= length (uidByte uid))%nat ->
  Forall is_byte (take (uid_size uid) (uidByte uid)) ->
  rfidUidToString uid
    = String.concat ":" (map hex2 (take (uid_size uid) (uidByte uid))) /\
  String.length (rfidUidToString uid) = (3 * uid_size uid - 1)%nat /\
  ((uid_size uid' <= length (uidByte uid'))%nat ->
   Forall is_byte (take (uid_size uid') (uidByte uid')) ->
   rfidUidToString uid = rfidUidToString uid' ->
   take (uid_size uid) (uidByte uid) = take (uid_size uid') (uidByte uid')).
Proof.
  assert (Hform : forall u, (uid_size u <= length (uidByte u))%nat ->
            Forall is_byte (take (uid_size u) (uidByte u)) ->
            rfidUidToString u
              = String.concat ":" (map hex2 (take (uid_size u) (uidByte u)))).
  { intros u Hs Hb. unfold rfidUidToString.
    rewrite uid_loop_concat by (first [reflexivity | assumption]).
    now rewrite drop_0. }
  intros Hs Hb. split; [now apply Hform|]. split.
  - rewrite Hform, concat_hex2_length by assumption.
    now rewrite length_take_le.
  - intros Hs' Hb' Heq. rewrite !Hform in Heq by assumption.
    now apply concat_hex2_inj.
Qed.

Lemma X20_uid_rendering_witness :
  String.length (rfidUidToString uid_tfrance) = 20%nat.
Proof.
  refine (proj1 (proj2 (X20_uid_rendering uid_tfrance uid_tfrance _ _))).
  - vm_compute. lia.
  - unfold is_byte. repeat constructor; vm_compute; discriminate.
Defined.

(** ** The motor and reader task, and the close endpoint *)

Section TaskMore.
Context {M : Type} `{AccelStepper M}.
Implicit Types w : World M.
Local Open Scope nat_scope.

Lemma busy_is_open_request (m : LogMsg) :
  is_busy_line m = true -> is_open_request m = true \/ is_barn_event m = true.
Proof. destruct m; try discriminate. now left. Qed.

Lemma open_request_is_open_request (m : LogMsg) :
  is_open_request m = true -> is_open_request m = true \/ is_barn_event m = true.
Proof. now left. Qed.

Lemma task_pass_counts (i : LoopInput) w :
  let w' := taskMotorAndRFID_pass i w in
  count_log is_busy_line (serial w') = count_log is_busy_line (serial w) /\
  count_log is_open_request (serial w')
    <= S (count_log is_open_request (serial w)) /\
  (totalMoves w' = totalMoves w \/ totalMoves w' = wrap32 (totalMoves w + 1)).
Proof.
  cbv zeta. unfold taskMotorAndRFID_pass.
  set (w1 := motorUpdate (upd_t1 i) (upd_t2 i) w).
  pose proof (motorUpdate_trace is_busy_line (upd_t1 i) (upd_t2 i) w
                busy_is_open_request) as Hb1.
  pose proof (motorUpdate_trace is_open_request (upd_t1 i) (upd_t2 i) w
                open_request_is_open_request) as Ho1.
  pose proof (motorUpdate_totalMoves (upd_t1 i) (upd_t2 i) w) as Ht1.
  fold w1 in Hb1, Ho1, Ht1.
  destruct (motorIsIdle w1); [|rewrite Hb1, Ho1, Ht1; repeat split; [lia | now left]].
  set (w2 := rfidCheckReader (r1_present i) (r1_uid i) 1 RefR1 (r1_t1 i) (r1_t2 i) w1).
  destruct (rfidCheckReader_controller (r1_present i) (r1_uid i) 1 RefR1
              (r1_t1 i) (r1_t2 i) w1) as (_ & _ & Hb2 & Hc2).
  destruct (rfidCheckReader_controller (r2_present i) (r2_uid i) 2 RefR2
              (r2_t1 i) (r2_t2 i) w2) as (_ & _ & Hb3 & Hc3).
  fold w2 in Hb2, Hc2.
  split; [congruence|].
  destruct (r1_present i && negb (get_flag RefR1 w1) && negb (manualMode w1)
            && motorIsIdle w1).
  - destruct Hc2 as (_ & Hst2 & _ & _ & Ht2 & Ho2).
    assert (Hidle : motorIsIdle w2 = false)
      by (unfold motorIsIdle; now rewrite Hst2).
    rewrite Hidle, andb_false_r in Hc3.
    destruct Hc3 as (_ & _ & _ & _ & Ht3 & Ho3).
    split; [lia | right; congruence].
  - destruct Hc2 as (_ & _ & _ & _ & Ht2 & Ho2).
    destruct (_ && _).
    + destruct Hc3 as (_ & _ & _ & _ & Ht3 & Ho3).
      split; [lia | right; congruence].
    + destruct Hc3 as (_ & _ & _ & _ & Ht3 & Ho3).
      split; [lia | left; congruence].
Qed.

(** X21.  One pass of the motor and reader task first updates the motor;
    if the motor is then not idle the readers are not polled at all, so a
    card shown while the door moves or holds changes nothing.  A pass makes
    at most one open request even when both readers see a new card, and
    along any run of passes the busy line is never printed: every open
    request the task makes is accepted. *)
Theorem X21_task_polls_only_when_idle (i : LoopInput) (ins : list LoopInput) w :
  let w1 := motorUpdate (upd_t1 i) (upd_t2 i) w in
  (motorIsIdle w1 = false -> taskMotorAndRFID_pass i w = w1) /\
  count_log is_open_request (serial (taskMotorAndRFID_pass i w))
    <= S (count_log is_open_request (serial w)) /\
  count_log is_busy_line (serial (taskMotorAndRFID_run ins w))
    = count_log is_busy_line (serial w) /\
  count_log is_open_request (serial (taskMotorAndRFID_run ins w))
    <= length ins + count_log is_open_request (serial w).
Proof.
  cbv zeta. split; [|split].
  - intros Hi. unfold taskMotorAndRFID_pass. now rewrite Hi.
  - apply task_pass_counts.
  - revert w. induction ins as [|j ins IH]; intros w; [split; simpl; lia|].
    unfold taskMotorAndRFID_run in *. cbn [fold_left length].
    destruct (IH (taskMotorAndRFID_pass j w)) as [Hb Ho].
    destruct (task_pass_counts j w) as (Hb1 & Ho1 & _).
    split; [congruence | lia].
Qed.

(** X22.  [webHandleDoorClose] always answers 200, text/plain, "OK".  In
    Idle it only prints; in every other state the door goes to Closing and
    the manual flag is cleared.  Hence a web "open" followed at once by a
    web "close" ends in Closing with the flag clear from every state. *)
Theorem X22_postClose t1 a1 a2 w :
  snd (webHandleDoorClose t1 w)
    = {| status := 200; content_type := "text/plain"; body := "OK" |} /\
  (motorState w = MOTOR_IDLE ->
     fst (webHandleDoorClose t1 w)
       = println LogMotorAlreadyClosed (println LogMotorManualCloseCmd w)) /\
  (motorState w <> MOTOR_IDLE ->
     motorState (fst (webHandleDoorClose t1 w)) = MOTOR_CLOSING /\
     manualMode (fst (webHandleDoorClose t1 w)) = false /\
     motor (fst (webHandleDoorClose t1 w)) = moveTo POS_CLOSED (motor w)) /\
  motorState (fst (webHandleDoorClose t1 (fst (webHandleDoorOpen a1 a2 w))))
    = MOTOR_CLOSING /\
  manualMode (fst (webHandleDoorClose t1 (fst (webHandleDoorOpen a1 a2 w))))
    = false.
Proof.
  split; [reflexivity|]. split; [|split].
  - intros Hs. unfold webHandleDoorClose, motorManualClose. simpl.
    now rewrite motorCloseDoor_idle.
  - intros Hs. unfold webHandleDoorClose, motorManualClose. simpl.
    rewrite motorCloseDoor_accept by exact Hs. repeat split.
  - destruct w as [m st t0 tm mm tot fl r1 r2 occ pop log].
    destruct st; split; reflexivity.
Qed.
End TaskMore.

Lemma X21_task_polls_only_when_idle_witness :
  taskMotorAndRFID_pass
    {| upd_t1 := 1; upd_t2 := 1;
       r1_present := true; r1_uid := uid_bron; r1_t1 := 2; r1_t2 := 2;
       r2_present := true; r2_uid := uid_tfrance; r2_t1 := 3; r2_t2 := 3 |}
    w_closing
  = motorUpdate 1 1 w_closing.
Proof.
  apply (X21_task_polls_only_when_idle
           {| upd_t1 := 1; upd_t2 := 1;
              r1_present := true; r1_uid := uid_bron; r1_t1 := 2; r1_t2 := 2;
              r2_present := true; r2_uid := uid_tfrance; r2_t1 := 3; r2_t2 := 3 |}
           [] w_closing).
  reflexivity.
Defined.

Lemma X22_postClose_witness :
  manualMode (fst (webHandleDoorClose 9 w_manual_open)) = false /\
  fst (webHandleDoorClose 9 w_stuck)
    = println LogMotorAlreadyClosed (println LogMotorManualCloseCmd w_stuck).
Proof.
  destruct (X22_postClose 9 0 0 w_manual_open) as (_ & _ & Hacc & _).
  destruct (X22_postClose 9 0 0 w_stuck) as (_ & Hidle & _).
  split.
  - apply Hacc. discriminate.
  - apply Hidle. reflexivity.
Defined.

(** ** The clock string *)

Lemma fmt_02d_length (n : Z) :
  0 <= n < 100 -> String.length (fmt_02d n) = 2%nat.
Proof.
  intros Hn.
  assert (Hall : forallb (fun k => Nat.eqb (String.length (fmt_02d (Z.of_nat k))) 2)
                   (seq 0 100) = true) by (vm_compute; reflexivity).
  rewrite forallb_forall in Hall.
  specialize (Hall (Z.to_nat n)).
  rewrite Z2Nat.id in Hall by lia.
  apply Nat.eqb_eq, Hall, in_seq. lia.
Qed.

(** X23.  For a 32-bit clock reading, [timeString] is an eight-character
    [hh:mm:ss] whose fields are the hours (below 24), minutes and seconds
    of the whole seconds elapsed, taken modulo one day: the string repeats
    after 86 400 000 ms, as long as the clock has not wrapped. *)
Theorem X23_timeString (ms : Z) :
  0 <= ms < 2 ^ 32 ->
  String.length (timeString ms) = 8%nat /\
  0 <= time_hh ms < 24 /\ 0 <= time_mm ms < 60 /\ 0 <= time_ss ms < 60 /\
  time_hh ms * 3600 + time_mm ms * 60 + time_ss ms = (ms / 1000) mod 86400 /\
  (ms + 86400000 < 2 ^ 32 -> timeString (ms + 86400000) = timeString ms).
Proof.
  intros Hms.
  assert (Hh : 0 <= time_hh ms < 24) by (apply Z.mod_pos_bound; lia).
  assert (Hm : 0 <= time_mm ms < 60) by (apply Z.mod_pos_bound; lia).
  assert (Hs : 0 <= time_ss ms < 60) by (apply Z.mod_pos_bound; lia).
  split; [|split; [exact Hh | split; [exact Hm | split; [exact Hs | split]]]].
  - unfold timeString. rewrite !string_length_app.
    rewrite !fmt_02d_length by lia. reflexivity.
  - unfold time_hh, time_mm, time_ss.
    set (sec := ms / 1000).
    assert (Hsec : 0 <= sec) by (apply Z.div_pos; lia).
    pose proof (Z.div_mod sec 60 ltac:(lia)) as H60.
    pose proof (Z.div_mod (sec / 60) 60 ltac:(lia)) as H3600.
    pose proof (Z.div_mod sec 86400 ltac:(lia)) as Hday.
    pose proof (Z.mod_pos_bound sec 60 ltac:(lia)).
    pose proof (Z.mod_pos_bound (sec / 60) 60 ltac:(lia)).
    pose proof (Z.mod_pos_bound sec 86400 ltac:(lia)).
    pose proof (Z.mod_pos_bound (sec / 3600) 24 ltac:(lia)).
    pose proof (Z.div_mod (sec / 3600) 24 ltac:(lia)) as H24.
    assert (Hd1 : sec / 60 / 60 = sec / 3600)
      by (rewrite Z.div_div by lia; reflexivity).
    assert (Hd2 : sec / 3600 / 24 = sec / 86400)
      by (rewrite Z.div_div by lia; reflexivity).
    rewrite Hd1 in H3600. rewrite Hd2 in H24. lia.
  - intros _. unfold timeString, time_hh, time_mm, time_ss.
    assert (E1 : (ms + 86400000) / 1000 = ms / 1000 + 86400).
    { replace (ms + 86400000) with (ms + 86400 * 1000) by lia.
      apply Z.div_add. lia. }
    rewrite E1. set (sec := ms / 1000).
    assert (E2 : (sec + 86400) / 3600 = sec / 3600 + 24).
    { replace (sec + 86400) with (sec + 24 * 3600) by lia.
      apply Z.div_add. lia. }
    assert (E3 : (sec + 86400) / 60 = sec / 60 + 1440).
    { replace (sec + 86400) with (sec + 1440 * 60) by lia.
      apply Z.div_add. lia. }
    assert (E4 : (sec / 3600 + 24) mod 24 = (sec / 3600) mod 24).
    { replace (sec / 3600 + 24) with (sec / 3600 + 1 * 24) by lia.
      apply Z.mod_add. lia. }
    assert (E5 : (sec / 60 + 1440) mod 60 = (sec / 60) mod 60).
    { replace (sec / 60 + 1440) with (sec / 60 + 24 * 60) by lia.
      apply Z.mod_add. lia. }
    assert (E6 : (sec + 86400) mod 60 = sec mod 60).
    { replace (sec + 86400) with (sec + 1440 * 60) by lia.
      apply Z.mod_add. lia. }
    now rewrite E2, E3, E4, E5, E6.
Qed.

Lemma X23_timeString_witness :
  String.length (timeString 3723004) = 8%nat /\
  timeString (3723004 + 86400000) = timeString 3723004.
Proof.
  assert (Hr : 0 <= 3723004 < 2 ^ 32) by (split; [lia | reflexivity]).
  destruct (X23_timeString 3723004 Hr) as (Hl & _ & _ & _ & _ & Hp).
  split; [exact Hl | apply Hp; reflexivity].
Defined.
